(** * Voter-registry front-end: record index and synchronisation logic

    A shallow embedding of [frontend/web/src/App.tsx]: the asynchronous
    operations [loadRecords], [registerVoter], [verifyRecord] and
    [rejectRecord], the owner test [isOwner] and the render-time guard
    of the Verify / Reject buttons.

    The operations are sequences of remote calls on a key/value contract
    interleaved with React state updates.  They are embedded in a small
    state-and-exception monad over a [World] made of the React state,
    the contract and a trace of the observable calls.  The JavaScript
    engine enters through the class [JSRuntime]; the statements hold
    for every runtime, and a reference runtime runs them on concrete
    worlds.

    Outline: JavaScript values; application state and the monad; the
    operations; summaries used in the statements; the reference
    runtime and concrete worlds; then the properties, grouped as record
    codec, status transitions, refresh, registration and the
    availability probe, and the round trip of the reference codec;
    last, further properties of the operations, of the wallet and form
    handlers and of the cells and counts of the dashboard. *)

From Stdlib Require Import ZArith String Ascii List Sorted Permutation.
From Stdlib Require Import DecimalString DecimalFacts DecimalPos DecimalZ.
From stdpp Require Import base option list gmap strings.

Set Warnings "-register-all".
Local Open Scope Z_scope.
Local Open Scope string_scope.
Local Open Scope list_scope.

(** ** JavaScript values *)

(** The values [JSON.parse] can return.  Numbers are the integers: the
    application only ever writes integral timestamps, and numerals with
    a fraction or an exponent are outside the model.  Strings are
    sequences of characters with code points below 256.  An object
    lists its properties in enumeration order. *)
Inductive json : Type :=
| JNull
| JBool (b : bool)
| JNum (n : Z)
| JStr (s : string)
| JArr (items : list json)
| JObj (props : list (string * json)).

(** Induction on values that reaches the elements of arrays and the
    values of objects. *)
Section json_induction.
Variable P : json -> Prop.
Hypothesis Hnull : P JNull.
Hypothesis Hbool : forall b, P (JBool b).
Hypothesis Hnum : forall n, P (JNum n).
Hypothesis Hstr : forall s, P (JStr s).
Hypothesis Harr : forall l, Forall P l -> P (JArr l).
Hypothesis Hobj : forall ps, Forall (fun p => P (snd p)) ps -> P (JObj ps).

Fixpoint json_nested_ind (v : json) : P v :=
  match v with
  | JNull => Hnull
  | JBool b => Hbool b
  | JNum n => Hnum n
  | JStr s => Hstr s
  | JArr l =>
      Harr l ((fix go (l : list json) : Forall P l :=
                 match l with
                 | [] => @List.Forall_nil _ P
                 | x :: r => @List.Forall_cons _ P x r (json_nested_ind x) (go r)
                 end) l)
  | JObj ps =>
      Hobj ps ((fix go (ps : list (string * json))
                  : Forall (fun p => P (snd p)) ps :=
                  match ps with
                  | [] => @List.Forall_nil _ _
                  | p :: r => @List.Forall_cons _ _ p r (json_nested_ind (snd p)) (go r)
                  end) ps)
  end.
End json_induction.


(** A value read from a property: [None] is [undefined]. *)
Definition jsval : Type := option json.

(** A thrown [Error]; only its [message] is ever inspected. *)
Record exn : Type := JsError { message : string }.

Inductive completion (A : Type) : Type :=
| Normal (a : A)
| Throw (e : exn).
Arguments Normal {A} a.
Arguments Throw {A} e.

(** The run-time type errors the operations can provoke. *)
Inductive js_fault : Type :=
| NotIterable      (* [for (const k of v)] on a value without an iterator *)
| NotAFunction     (* [v.push(..)], [v.toLowerCase()] on a value lacking the method *)
| ReadOfNullish    (* a property read on [null] or [undefined] *)
| NoPrimitiveValue. (* a conversion of an object that has no callable [toString] *)

(** What the operations use from the JavaScript engine and the browser.
    The text codec, [btoa], the numeric reading of a string, the text
    of a number that is written with an exponent and the text of
    engine-raised errors are left to the engine. *)
Class JSRuntime : Type := {
  JSON_parse : string -> completion json;
  JSON_stringify : json -> string;
  btoa : string -> string;
  StringToNumber : string -> option Z;
  exponent_text : Z -> string;
  engine_error : js_fault -> exn
}.

(** [ToBoolean]. *)
Definition truthy (v : jsval) : bool :=
  match v with
  | None => false
  | Some JNull => false
  | Some (JBool b) => b
  | Some (JNum n) => negb (n =? 0)%Z
  | Some (JStr s) => negb (String.eqb s "")
  | Some (JArr _) => true
  | Some (JObj _) => true
  end.

(** [a || b] on values. *)
Definition js_or (a : jsval) (b : json) : json :=
  match a with
  | Some v => if truthy a then v else b
  | None => b
  end.

(** Decimal rendering of an integer, as [Number.prototype.toString]
    does for integers of magnitude below 10^21. *)
Definition Z_to_string (n : Z) : string :=
  NilZero.string_of_int (Z.to_int n).

(** [Array.prototype.join] on strings. *)
Fixpoint join (sep : string) (l : list string) : string :=
  match l with
  | [] => ""
  | x :: r =>
      match r with
      | [] => x
      | _ :: _ => x +:+ sep +:+ join sep r
      end
  end.

(** [Number::toString] of an integer: its decimal digits below 10^21,
    the engine's exponent form from there on. *)
Definition number_text `{JSRuntime} (n : Z) : string :=
  if (Z.abs n <? 10 ^ 21)%Z then Z_to_string n else exponent_text n.

(** [ToString], as applied by a template literal [`${v}`], in two
    parts.

    [unprintable v] says that the conversion throws.  An object is
    converted through its [toString]; a parsed object that has an own
    property of that name holds a parsed value there, which cannot be
    called, and [Object.prototype.valueOf] gives no primitive either, so
    the conversion ends in a [TypeError].  An array is converted by
    joining the conversions of its elements, [null] apart. *)
Fixpoint unprintable (v : json) : bool :=
  match v with
  | JObj ps =>
      existsb (fun p => String.eqb (fst p) "toString") ps
  | JArr l => existsb unprintable l
  | JNull | JBool _ | JNum _ | JStr _ => false
  end.

(** [to_text v] is the text of [v] when the conversion completes. *)
Fixpoint to_text `{JSRuntime} (v : json) : string :=
  match v with
  | JNull => "null"
  | JBool true => "true"
  | JBool false => "false"
  | JNum n => number_text n
  | JStr s => s
  | JArr l =>
      join "," (map (fun x => match x with JNull => "" | _ => to_text x end) l)
  | JObj _ => "[object Object]"
  end.

Definition ToString `{JSRuntime} (v : json) : completion string :=
  if unprintable v then Throw (engine_error NoPrimitiveValue)
  else Normal (to_text v).

(** [ToNumber]; [None] is [NaN].  An array or an object is first
    converted to a primitive, which is its text. *)
Definition ToNumber `{JSRuntime} (v : jsval) : completion (option Z) :=
  match v with
  | None => Normal None
  | Some JNull => Normal (Some 0)
  | Some (JBool b) => Normal (Some (if b then 1 else 0))
  | Some (JNum n) => Normal (Some n)
  | Some (JStr s) => Normal (StringToNumber s)
  | Some (JArr l) =>
      match ToString (JArr l) with
      | Normal s => Normal (StringToNumber s)
      | Throw e => Throw e
      end
  | Some (JObj ps) =>
      match ToString (JObj ps) with
      | Normal _ => Normal None
      | Throw e => Throw e
      end
  end.

(** The values a [for ... of] loop visits: the elements of an array, the
    characters of a string; nothing else produced by [JSON.parse] is
    iterable. *)
Definition chars (s : string) : list json :=
  map (fun c => JStr (String c EmptyString)) (list_ascii_of_string s).

Definition iterate `{JSRuntime} (v : json) : completion (list json) :=
  match v with
  | JArr l => Normal l
  | JStr s => Normal (chars s)
  | _ => Throw (engine_error NotIterable)
  end.

(** [keys.push(x)]. *)
Definition push `{JSRuntime} (keys : json) (x : json) : completion json :=
  match keys with
  | JArr l => Normal (JArr (l ++ [x]))
  | JNull => Throw (engine_error ReadOfNullish)
  | _ => Throw (engine_error NotAFunction)
  end.

(** Own properties, first binding of a name. *)
Fixpoint lookup_prop (k : string) (ps : list (string * json)) : jsval :=
  match ps with
  | [] => None
  | (k', v) :: r => if String.eqb k k' then Some v else lookup_prop k r
  end.

(** Assignment to a property of an object literal under construction:
    an existing property keeps its place, a new one goes last. *)
Fixpoint set_prop (k : string) (v : json) (ps : list (string * json))
  : list (string * json) :=
  match ps with
  | [] => [(k, v)]
  | (k', v') :: r =>
      if String.eqb k k' then (k, v) :: r else (k', v') :: set_prop k v r
  end.

(** The own enumerable properties copied by [{...v}]. *)
Fixpoint indexed (i : Z) (l : list json) : list (string * json) :=
  match l with
  | [] => []
  | x :: r => (Z_to_string i, x) :: indexed (i + 1) r
  end.

Definition spread (v : json) : list (string * json) :=
  match v with
  | JObj ps => ps
  | JArr l => indexed 0 l
  | JStr s => indexed 0 (chars s)
  | JNull | JBool _ | JNum _ => []
  end.

(** The six properties of a stored record.  None of these names is
    defined on a built-in prototype, so reading one from a number, a
    boolean, a string or an array gives [undefined]. *)
Inductive field : Type :=
| f_data | f_timestamp | f_owner | f_region | f_ageGroup | f_status.

Definition field_name (f : field) : string :=
  match f with
  | f_data => "data"
  | f_timestamp => "timestamp"
  | f_owner => "owner"
  | f_region => "region"
  | f_ageGroup => "ageGroup"
  | f_status => "status"
  end.

(** [v.f] for a parsed value [v]. *)
Definition get_field `{JSRuntime} (v : json) (f : field) : completion jsval :=
  match v with
  | JNull => Throw (engine_error ReadOfNullish)
  | JObj ps => Normal (lookup_prop (field_name f) ps)
  | _ => Normal None
  end.

(** [String.prototype.toLowerCase] on code points below 256. *)
Definition lower_char (c : ascii) : ascii :=
  let n := N_of_ascii c in
  if ((65 <=? n) && (n <=? 90) || (192 <=? n) && (n <=? 214)
      || (216 <=? n) && (n <=? 222))%N
  then ascii_of_N (n + 32) else c.

Fixpoint toLowerCase (s : string) : string :=
  match s with
  | EmptyString => EmptyString
  | String c r => String (lower_char c) (toLowerCase r)
  end.

(** [s.includes(t)]. *)
Definition includes (s t : string) : bool :=
  match String.index 0 t s with
  | Some _ => true
  | None => false
  end.

(** ** Application state *)

(** A row of the dashboard, as [loadRecords] builds it.  The interface
    [VoterRecord] types the fields, but nothing checks a parsed payload
    against it: a field holds whatever the payload had under its name. *)
Record VoterRecord : Type := {
  id : json;
  encryptedData : jsval;
  timestamp : jsval;
  owner : jsval;
  status : json;
  region : jsval;
  ageGroup : jsval
}.

Inductive TxKind : Type := tx_pending | tx_success | tx_error.

(** [transactionStatus]. *)
Record TxStatus : Type := {
  tx_visible : bool;
  tx_status : TxKind;
  tx_message : string
}.

(** [newRecordData], the registration form. *)
Record FormData : Type := {
  form_region : string;
  form_ageGroup : string;
  form_sensitiveInfo : string
}.

(** The React state the operations read and write.  [provider] records
    whether a wallet provider is set. *)
Record AppState : Type := {
  account : string;
  provider : bool;
  records : list VoterRecord;
  loading : bool;
  isRefreshing : bool;
  registering : bool;
  transactionStatus : TxStatus;
  newRecordData : FormData
}.

(** Modelled from the spec: the key/value contract behind
    [getContractReadOnly] and [getContractWithSigner] (module
    [./contract] and the deployed contract are not part of the sources).
    [getData] answers the bytes stored under a key, empty when the key
    was never written; [setData] replaces them; [isAvailable] answers a
    boolean.  A payload is represented by the text it holds.  Each call
    can also be rejected (network failure, refused signature): the
    [*_fault] components say which calls throw, and with what error. *)
Record Contract : Type := {
  available : bool;
  storage : gmap string string;
  probe_fault : option exn;
  read_faults : gmap string exn;
  write_faults : gmap string exn
}.

(** What can be observed of a run, in order. *)
Inductive event : Type :=
| CallIsAvailable
| CallGetData (key : string)
| CallSetData (key value : string)
| ConsoleError (msg : string)
| Alert (msg : string).

(** [reader] and [signer] say whether [getContractReadOnly] and
    [getContractWithSigner] hand out a contract object or [null]. *)
Record World : Type := {
  app : AppState;
  chain : Contract;
  reader : bool;
  signer : bool;
  trace : list event
}.

Definition with_app (f : AppState -> AppState) (w : World) : World :=
  {| app := f (app w); chain := chain w; reader := reader w;
     signer := signer w; trace := trace w |}.

Definition with_chain (f : Contract -> Contract) (w : World) : World :=
  {| app := app w; chain := f (chain w); reader := reader w;
     signer := signer w; trace := trace w |}.

Definition log (e : event) (w : World) : World :=
  {| app := app w; chain := chain w; reader := reader w;
     signer := signer w; trace := trace w ++ [e] |}.

Definition write (key value : string) (c : Contract) : Contract :=
  {| available := available c; storage := <[key := value]> (storage c);
     probe_fault := probe_fault c; read_faults := read_faults c;
     write_faults := write_faults c |}.

Definition put_records (l : list VoterRecord) (a : AppState) : AppState :=
  {| account := account a; provider := provider a; records := l;
     loading := loading a; isRefreshing := isRefreshing a;
     registering := registering a;
     transactionStatus := transactionStatus a;
     newRecordData := newRecordData a |}.

Definition put_loading (b : bool) (a : AppState) : AppState :=
  {| account := account a; provider := provider a; records := records a;
     loading := b; isRefreshing := isRefreshing a;
     registering := registering a;
     transactionStatus := transactionStatus a;
     newRecordData := newRecordData a |}.

Definition put_isRefreshing (b : bool) (a : AppState) : AppState :=
  {| account := account a; provider := provider a; records := records a;
     loading := loading a; isRefreshing := b;
     registering := registering a;
     transactionStatus := transactionStatus a;
     newRecordData := newRecordData a |}.

Definition put_registering (b : bool) (a : AppState) : AppState :=
  {| account := account a; provider := provider a; records := records a;
     loading := loading a; isRefreshing := isRefreshing a;
     registering := b;
     transactionStatus := transactionStatus a;
     newRecordData := newRecordData a |}.

Definition put_transactionStatus (t : TxStatus) (a : AppState) : AppState :=
  {| account := account a; provider := provider a; records := records a;
     loading := loading a; isRefreshing := isRefreshing a;
     registering := registering a;
     transactionStatus := t;
     newRecordData := newRecordData a |}.

(** ** The monad of operations *)

(** An operation runs from a world to a completion and a world.  The
    [await]s of the source are the sequencing of this monad; timers
    ([setTimeout], the three-second pause) are not represented. *)
Definition M (A : Type) : Type := World -> completion A * World.

#[global] Instance completion_ret : MRet completion := fun A a => Normal a.
#[global] Instance completion_bind : MBind completion := fun A B f c =>
  match c with
  | Normal a => f a
  | Throw e => Throw e
  end.

#[global] Instance M_ret : MRet M := fun A a w => (Normal a, w).
#[global] Instance M_bind : MBind M := fun A B f m w =>
  match m w with
  | (Normal a, w') => f a w'
  | (Throw e, w') => (Throw e, w')
  end.

Definition throw {A : Type} (e : exn) : M A := fun w => (Throw e, w).

Definition lift {A : Type} (c : completion A) : M A := fun w => (c, w).

(** [try { body } catch (e) { handler e }]. *)
Definition try_catch {A : Type} (body : M A) (handler : exn -> M A) : M A :=
  fun w =>
    match body w with
    | (Normal a, w') => (Normal a, w')
    | (Throw e, w') => handler e w'
    end.

(** [try { body } finally { final }]. *)
Definition try_finally {A : Type} (body : M A) (final : M unit) : M A :=
  fun w =>
    match body w with
    | (r, w') =>
        match final w' with
        | (Normal _, w'') => (r, w'')
        | (Throw e, w'') => (Throw e, w'')
        end
    end.

Definition emit (e : event) : M unit := fun w => (Normal tt, log e w).

Definition get_state : M AppState := fun w => (Normal (app w), w).

Definition set_state (f : AppState -> AppState) : M unit :=
  fun w => (Normal tt, with_app f w).

Definition console_error (msg : string) : M unit := emit (ConsoleError msg).
Definition alert (msg : string) : M unit := emit (Alert msg).

Definition setRecords (l : list VoterRecord) : M unit :=
  set_state (put_records l).
Definition setLoading (b : bool) : M unit := set_state (put_loading b).
Definition setIsRefreshing (b : bool) : M unit :=
  set_state (put_isRefreshing b).
Definition setRegistering (b : bool) : M unit :=
  set_state (put_registering b).
Definition setTransactionStatus (k : TxKind) (msg : string) : M unit :=
  set_state (put_transactionStatus
               {| tx_visible := true; tx_status := k; tx_message := msg |}).

(** ** Contract calls *)

Definition getContractReadOnly : M bool := fun w => (Normal (reader w), w).
Definition getContractWithSigner : M bool := fun w => (Normal (signer w), w).

Definition isAvailable : M bool := fun w =>
  let w' := log CallIsAvailable w in
  match probe_fault (chain w) with
  | Some e => (Throw e, w')
  | None => (Normal (available (chain w)), w')
  end.

Definition stored (c : Contract) (key : string) : string :=
  default "" (storage c !! key).

Definition getData (key : string) : M string := fun w =>
  let w' := log (CallGetData key) w in
  match read_faults (chain w) !! key with
  | Some e => (Throw e, w')
  | None => (Normal (stored (chain w) key), w')
  end.

Definition setData (key value : string) : M unit := fun w =>
  let w' := log (CallSetData key value) w in
  match write_faults (chain w) !! key with
  | Some e => (Throw e, w')
  | None => (Normal tt, with_chain (write key value) w')
  end.

(** ** The operations of [App.tsx] *)

Section Operations.
Context `{rt : JSRuntime}.

(** [bytes.length > 0]: the payload read from the contract is not the
    empty one. *)
Definition nonempty (bytes : string) : bool := negb (String.eqb bytes "").

(** The object literal pushed onto [list] in [loadRecords]; its property
    reads happen in source order and throw when [recordData] is [null]. *)
Definition build_record (key recordData : json) : completion VoterRecord :=
  d ← get_field recordData f_data;
  t ← get_field recordData f_timestamp;
  o ← get_field recordData f_owner;
  r ← get_field recordData f_region;
  g ← get_field recordData f_ageGroup;
  s ← get_field recordData f_status;
  Normal {| id := key; encryptedData := d; timestamp := t; owner := o;
            region := r; ageGroup := g;
            status := js_or s (JStr "pending") |}.

(** [let keys = []; if (keysBytes.length > 0) { try { keys =
    JSON.parse(..) } catch (e) { console.error(msg, e) } }]. *)
Definition parse_keys (msg : string) (keysBytes : string) : M json :=
  if nonempty keysBytes then
    try_catch (lift (JSON_parse keysBytes))
              (fun _ => console_error msg ;; mret (JArr []))
  else mret (JArr []).

(** The body of the inner [try] of the loop: parse the bytes, then read
    the fields off the parsed value. *)
Definition decode_record (key : json) (recordBytes : string)
  : completion VoterRecord :=
  recordData ← JSON_parse recordBytes;
  build_record key recordData.

(** One turn of the [for (const key of keys)] loop: the array [list]
    after it.  The three template literals convert [key] to a string;
    the one of the outer handler does so outside any [try] of the
    loop, so that what it throws leaves the loop. *)
Definition load_one (key : json) (acc : list VoterRecord)
  : M (list VoterRecord) :=
  try_catch
    (name ← lift (ToString key);
     recordBytes ← getData ("record_" +:+ name);
     if nonempty recordBytes then
       try_catch
         (r ← lift (decode_record key recordBytes);
          mret (acc ++ [r]))
         (fun _ =>
            name ← lift (ToString key);
            console_error ("Error parsing record data for "
                             +:+ name +:+ ":") ;;
            mret acc)
     else mret acc)
    (fun _ =>
       name ← lift (ToString key);
       console_error ("Error loading record " +:+ name +:+ ":") ;;
       mret acc).

Fixpoint load_loop (keys : list json) (acc : list VoterRecord)
  : M (list VoterRecord) :=
  match keys with
  | [] => mret acc
  | key :: rest => acc' ← load_one key acc; load_loop rest acc'
  end.

(** The comparator [(a, b) => b.timestamp - a.timestamp]: the left
    operand is converted first; [None] is [NaN], also as the difference
    when an operand is. *)
Definition by_timestamp_desc (a b : VoterRecord) : completion (option Z) :=
  tb ← ToNumber (timestamp b);
  ta ← ToNumber (timestamp a);
  Normal (match tb, ta with
          | Some nb, Some na => Some (nb - na)
          | _, _ => None
          end).

(** [Array.prototype.sort] with a comparator.  The sort is stable, a
    comparator result that is [NaN] counts as [0], and what the
    comparator throws ends the sort.  An array of fewer than two
    elements is returned without a call of the comparator; from two
    elements on every element is compared at least once.  For a
    comparator that orders the elements consistently the result is the
    one every engine computes; the stable insertion sort below is how
    it is computed here. *)
Definition goes_after (d : option Z) : bool :=
  match d with
  | Some d => (0 <? d)%Z
  | None => false
  end.

Fixpoint sort_insert {A : Type} (cmp : A -> A -> completion (option Z))
  (x : A) (l : list A) : completion (list A) :=
  match l with
  | [] => Normal [x]
  | y :: r =>
      d ← cmp x y;
      if goes_after d then r' ← sort_insert cmp x r; Normal (y :: r')
      else Normal (x :: y :: r)
  end.

Fixpoint sort {A : Type} (cmp : A -> A -> completion (option Z))
  (l : list A) : completion (list A) :=
  match l with
  | [] => Normal []
  | x :: r => sorted ← sort cmp r; sort_insert cmp x sorted
  end.

Definition loadRecords : M unit :=
  setIsRefreshing true ;;
  try_finally
    (try_catch
       (contract ← getContractReadOnly;
        if negb contract then mret tt else
        ok ← isAvailable;
        if negb ok then console_error "Contract is not available" else
        keysBytes ← getData "record_keys";
        keys ← parse_keys "Error parsing record keys:" keysBytes;
        items ← lift (iterate keys);
        acc ← load_loop items [];
        sorted ← lift (sort by_timestamp_desc acc);
        setRecords sorted)
       (fun _ => console_error "Error loading records:"))
    (setIsRefreshing false ;; setLoading false).

(** [JSON.stringify(newRecordData)] receives the form object. *)
Definition form_json (f : FormData) : json :=
  JObj [("region", JStr (form_region f));
        ("ageGroup", JStr (form_ageGroup f));
        ("sensitiveInfo", JStr (form_sensitiveInfo f))].

(** [e.message || "Unknown error"]. *)
Definition message_or_unknown (e : exn) : string :=
  if nonempty (message e) then message e else "Unknown error".

(** The identifier and the payload [registerVoter] builds.  [now_id]
    and [now_ts] are the two readings of [Date.now()], [suffix] is
    [Math.random().toString(36).substring(2, 9)]. *)
Definition new_recordId (now_id : Z) (suffix : string) : string :=
  Z_to_string now_id +:+ "-" +:+ suffix.

Definition new_recordData (a : AppState) (now_ts : Z) : json :=
  JObj [("data",
         JStr ("FHE-" +:+ btoa (JSON_stringify (form_json (newRecordData a)))));
        ("timestamp", JNum (now_ts / 1000));
        ("owner", JStr (account a));
        ("region", JStr (form_region (newRecordData a)));
        ("ageGroup", JStr (form_ageGroup (newRecordData a)));
        ("status", JStr "pending")].

Definition registerVoter (now_id now_ts : Z) (suffix : string) : M unit :=
  a ← get_state;
  if negb (provider a) then alert "Please connect wallet first" else
  setRegistering true ;;
  setTransactionStatus tx_pending "Encrypting voter data with FHE..." ;;
  try_finally
    (try_catch
       (contract ← getContractWithSigner;
        if negb contract
        then throw (JsError "Failed to get contract with signer") else
        let recordId := new_recordId now_id suffix in
        setData ("record_" +:+ recordId)
                (JSON_stringify (new_recordData a now_ts)) ;;
        keysBytes ← getData "record_keys";
        keys ← parse_keys "Error parsing keys:" keysBytes;
        keys' ← lift (push keys (JStr recordId));
        setData "record_keys" (JSON_stringify keys') ;;
        setTransactionStatus tx_success
          "Voter registration submitted securely!" ;;
        loadRecords)
       (fun e =>
          setTransactionStatus tx_error
            (if includes (message e) "user rejected transaction"
             then "Transaction rejected by user"
             else "Registration failed: " +:+ message_or_unknown e)))
    (setRegistering false).

(** [{ ...recordData, status: newStatus }]. *)
Definition with_status (recordData : json) (newStatus : string) : json :=
  JObj (set_prop "status" (JStr newStatus) (spread recordData)).

(** The common body of [verifyRecord] and [rejectRecord], which differ
    in the status written and in the two messages.  [recordId] is
    declared a [string] (lines 226 and 288) and is the [id] of a row
    whose ID cell (line 580) has been rendered, which a value other
    than a string does not allow; the template literal
    [`record_${recordId}`] is taken on its text. *)
Definition transition (newStatus okMessage failPrefix : string)
  (recordId : json) : M unit :=
  a ← get_state;
  if negb (provider a) then alert "Please connect wallet first" else
  setTransactionStatus tx_pending "Processing encrypted data with FHE..." ;;
  try_catch
    (contract ← getContractWithSigner;
     if negb contract
     then throw (JsError "Failed to get contract with signer") else
     recordBytes ← getData ("record_" +:+ to_text recordId);
     if negb (nonempty recordBytes)
     then throw (JsError "Record not found") else
     recordData ← lift (JSON_parse recordBytes);
     setData ("record_" +:+ to_text recordId)
             (JSON_stringify (with_status recordData newStatus)) ;;
     setTransactionStatus tx_success okMessage ;;
     loadRecords)
    (fun e =>
       setTransactionStatus tx_error
         (failPrefix +:+ message_or_unknown e)).

Definition verifyRecord : json -> M unit :=
  transition "verified" "FHE verification completed successfully!"
             "Verification failed: ".

Definition rejectRecord : json -> M unit :=
  transition "rejected" "FHE rejection completed successfully!"
             "Rejection failed: ".

(** [account.toLowerCase() === address.toLowerCase()]. *)
Definition isOwner (acct : string) (address : jsval) : completion bool :=
  match address with
  | Some (JStr s) => Normal (String.eqb (toLowerCase acct) (toLowerCase s))
  | None | Some JNull => Throw (engine_error ReadOfNullish)
  | Some _ => Throw (engine_error NotAFunction)
  end.

(** [v === "literal"]. *)
Definition is_string (v : json) (s : string) : bool :=
  match v with
  | JStr s' => String.eqb s' s
  | _ => false
  end.

(** The buttons rendered in the actions cell of a row:
    [isOwner(record.owner) && record.status === "pending" && (<>Verify,
    Reject</>)].  A button, when clicked, calls the operation on
    [record.id]. *)
Inductive button : Type :=
| VerifyButton (recordId : json)
| RejectButton (recordId : json).

Definition row_buttons (acct : string) (r : VoterRecord)
  : completion (list button) :=
  mine ← isOwner acct (owner r);
  Normal (if mine && is_string (status r) "pending"
          then [VerifyButton (id r); RejectButton (id r)]
          else []).

Definition click (b : button) : M unit :=
  match b with
  | VerifyButton i => verifyRecord i
  | RejectButton i => rejectRecord i
  end.

End Operations.

(** ** Records that match the interface *)

Inductive Status : Type := pending | verified | rejected.

Definition status_name (s : Status) : string :=
  match s with
  | pending => "pending"
  | verified => "verified"
  | rejected => "rejected"
  end.

(** A record as [interface VoterRecord] types it. *)
Record Voter : Type := {
  v_id : string;
  v_encryptedData : string;
  v_timestamp : Z;
  v_owner : string;
  v_status : Status;
  v_region : string;
  v_ageGroup : string
}.

(** The row holding a typed record. *)
Definition row_of (v : Voter) : VoterRecord :=
  {| id := JStr (v_id v);
     encryptedData := Some (JStr (v_encryptedData v));
     timestamp := Some (JNum (v_timestamp v));
     owner := Some (JStr (v_owner v));
     status := JStr (status_name (v_status v));
     region := Some (JStr (v_region v));
     ageGroup := Some (JStr (v_ageGroup v)) |}.

(** The payload stored for a typed record: the object literal of
    [registerVoter] (lines 157-164) with the record's values; the
    identifier is not part of it, the record key carries it. *)
Definition encode (v : Voter) : json :=
  JObj [("data", JStr (v_encryptedData v));
        ("timestamp", JNum (v_timestamp v));
        ("owner", JStr (v_owner v));
        ("region", JStr (v_region v));
        ("ageGroup", JStr (v_ageGroup v));
        ("status", JStr (status_name (v_status v)))].

Definition set_status (s : Status) (v : Voter) : Voter :=
  {| v_id := v_id v; v_encryptedData := v_encryptedData v;
     v_timestamp := v_timestamp v; v_owner := v_owner v;
     v_status := s; v_region := v_region v; v_ageGroup := v_ageGroup v |}.

(** A row with another status, all other fields kept. *)
Definition row_with_status (s : json) (r : VoterRecord) : VoterRecord :=
  {| id := id r; encryptedData := encryptedData r;
     timestamp := timestamp r; owner := owner r; status := s;
     region := region r; ageGroup := ageGroup r |}.

(** The timestamp of a row that has a number there. *)
Definition seconds (r : VoterRecord) : Z :=
  match timestamp r with
  | Some (JNum n) => n
  | _ => 0
  end.


(** ** Summaries used in the statements *)

Section Summaries.
Context `{rt : JSRuntime}.

Definition logs (es : list event) (w : World) : World :=
  {| app := app w; chain := chain w; reader := reader w;
     signer := signer w; trace := trace w ++ es |}.

(** The key [`record_${key}`], for a [key] that has a text. *)
Definition record_key (key : json) : string := "record_" +:+ to_text key.

(** What lines 86-95 of [loadRecords] (and 172-181 of [registerVoter])
    leave in [keys] for given index bytes. *)
Definition load_keys (keysBytes : string) : json :=
  if nonempty keysBytes then
    match JSON_parse keysBytes with
    | Normal v => v
    | Throw _ => JArr []
    end
  else JArr [].

Definition load_keys_events (msg keysBytes : string) : list event :=
  if nonempty keysBytes then
    match JSON_parse keysBytes with
    | Normal _ => []
    | Throw _ => [ConsoleError msg]
    end
  else [].

(** What one turn of the loop adds to [list] for a key that has a
    text: the record decoded from the bytes under its record key, or
    nothing when the read throws, the bytes are empty or they do not
    decode. *)
Definition fetch (c : Contract) (key : json) : option VoterRecord :=
  match read_faults c !! record_key key with
  | Some _ => None
  | None =>
      if nonempty (stored c (record_key key)) then
        match decode_record key (stored c (record_key key)) with
        | Normal r => Some r
        | Throw _ => None
        end
      else None
  end.

Definition fetch_events (c : Contract) (key : json) : list event :=
  CallGetData (record_key key) ::
  match read_faults c !! record_key key with
  | Some _ => [ConsoleError ("Error loading record " +:+ to_text key +:+ ":")]
  | None =>
      if nonempty (stored c (record_key key)) then
        match decode_record key (stored c (record_key key)) with
        | Normal _ => []
        | Throw _ =>
            [ConsoleError ("Error parsing record data for "
                             +:+ to_text key +:+ ":")]
        end
      else []
  end.

(** The identifiers a refresh would visit: the index as stored. *)
Definition index_ids (c : Contract) : list json :=
  match iterate (load_keys (stored c "record_keys")) with
  | Normal l => l
  | Throw _ => []
  end.


(** The [setData] calls of a trace, in order. *)
Definition writes_of (tr : list event) : list (string * string) :=
  omap (fun e => match e with
                 | CallSetData k v => Some (k, v)
                 | _ => None
                 end) tr.

Definition apply_writes (ws : list (string * string)) (c : Contract)
  : Contract :=
  foldl (fun c kv => write (fst kv) (snd kv) c) c ws.

(** The events an operation adds to the trace. *)
Definition events_of {A : Type} (m : M A) (w : World) : list event :=
  drop (length (trace w)) (trace (snd (m w))).

(** The React state a refresh leaves when it ends with [records] equal
    to [l]: [isRefreshing] was raised and is cleared again, [loading] is
    cleared. *)
Definition refreshed (l : list VoterRecord) (a : AppState) : AppState :=
  put_loading false
    (put_isRefreshing false (put_records l (put_isRefreshing true a))).

(** The entries the loop gets through: those before the first one that
    has no text. *)
Fixpoint visited (items : list json) : list json :=
  match items with
  | [] => []
  | key :: rest => if unprintable key then [] else key :: visited rest
  end.

(** The whole of [loadRecords] as a function of the world it starts
    from: the value of [records] it ends with, and the events it adds.
    Only the path through [setRecords] replaces the snapshot. *)
Definition refresh_outcome (w : World) : list VoterRecord * list event :=
  let old := records (app w) in
  if reader w then
    match probe_fault (chain w) with
    | Some _ => (old, [CallIsAvailable; ConsoleError "Error loading records:"])
    | None =>
        if available (chain w) then
          match read_faults (chain w) !! "record_keys" with
          | Some _ =>
              (old, [CallIsAvailable; CallGetData "record_keys";
                     ConsoleError "Error loading records:"])
          | None =>
              let bytes := stored (chain w) "record_keys" in
              let head :=
                [CallIsAvailable; CallGetData "record_keys"]
                  ++ load_keys_events "Error parsing record keys:" bytes in
              match iterate (load_keys bytes) with
              | Normal items =>
                  let seen :=
                    head ++ concat (map (fetch_events (chain w))
                                        (visited items)) in
                  if existsb unprintable items
                  then (old, seen ++ [ConsoleError "Error loading records:"])
                  else
                    match sort by_timestamp_desc
                                (omap (fetch (chain w)) items) with
                    | Normal rows => (rows, seen)
                    | Throw _ =>
                        (old, seen ++ [ConsoleError "Error loading records:"])
                    end
              | Throw _ =>
                  (old, head ++ [ConsoleError "Error loading records:"])
              end
          end
        else (old, [CallIsAvailable; ConsoleError "Contract is not available"])
    end
  else (old, []).

(** The [try] body of [verifyRecord] / [rejectRecord] up to its
    [setData], as a function of the world: the contract calls made, and
    either the error thrown or the bytes written under the record key. *)
Definition transition_attempt (newStatus : string) (recordId : json)
  (w : World) : list event * (exn + string) :=
  let key := record_key recordId in
  if signer w then
    match read_faults (chain w) !! key with
    | Some e => ([CallGetData key], inl e)
    | None =>
        let bytes := stored (chain w) key in
        if nonempty bytes then
          match JSON_parse bytes with
          | Throw e => ([CallGetData key], inl e)
          | Normal recordData =>
              let new := JSON_stringify (with_status recordData newStatus) in
              match write_faults (chain w) !! key with
              | Some e => ([CallGetData key; CallSetData key new], inl e)
              | None => ([CallGetData key; CallSetData key new], inr new)
              end
          end
        else ([CallGetData key], inl (JsError "Record not found"))
    end
  else ([], inl (JsError "Failed to get contract with signer")).

(** The [try] body of [registerVoter] up to its second [setData]: the
    contract calls made, the writes that took effect, and the error
    thrown if any. *)
Definition register_attempt (now_id now_ts : Z) (suffix : string)
  (w : World) : list event * list (string * string) * option exn :=
  let recordId := new_recordId now_id suffix in
  let key := "record_" +:+ recordId in
  let payload := JSON_stringify (new_recordData (app w) now_ts) in
  if signer w then
    match write_faults (chain w) !! key with
    | Some e => ([CallSetData key payload], [], Some e)
    | None =>
        match read_faults (chain w) !! "record_keys" with
        | Some e =>
            ([CallSetData key payload; CallGetData "record_keys"],
             [(key, payload)], Some e)
        | None =>
            let bytes := stored (write key payload (chain w)) "record_keys" in
            let head :=
              [CallSetData key payload; CallGetData "record_keys"]
                ++ load_keys_events "Error parsing keys:" bytes in
            match push (load_keys bytes) (JStr recordId) with
            | Throw e => (head, [(key, payload)], Some e)
            | Normal keys' =>
                let index := JSON_stringify keys' in
                match write_faults (chain w) !! "record_keys" with
                | Some e =>
                    (head ++ [CallSetData "record_keys" index],
                     [(key, payload)], Some e)
                | None =>
                    (head ++ [CallSetData "record_keys" index],
                     [(key, payload); ("record_keys", index)], None)
                end
            end
        end
    end
  else ([], [], Some (JsError "Failed to get contract with signer")).

Definition registration_error_text (e : exn) : string :=
  if includes (message e) "user rejected transaction"
  then "Transaction rejected by user"
  else "Registration failed: " +:+ message_or_unknown e.

Definition tx (k : TxKind) (msg : string) : TxStatus :=
  {| tx_visible := true; tx_status := k; tx_message := msg |}.

(** What lets a transition of [recordId] go through: a connected
    wallet, a signer, no refused call, and non-empty bytes under the
    record key that parse to [recordData].  Neither the account nor the
    content of [recordData] is constrained. *)
Definition ready (recordId recordData : json) (w : World) : Prop :=
  provider (app w) = true /\ signer w = true
  /\ read_faults (chain w) !! record_key recordId = None
  /\ write_faults (chain w) !! record_key recordId = None
  /\ stored (chain w) (record_key recordId) <> ""
  /\ JSON_parse (stored (chain w) (record_key recordId)) = Normal recordData.

(** The operation ended on its success message. *)
Definition succeeded (w : World) : Prop :=
  tx_status (transactionStatus (app w)) = tx_success.

(** Between two contract states, the record of [recordId] kept its key
    and all its fields but the status, now [newStatus], and no other key
    was touched. *)
Definition only_status_changed (recordId : json) (newStatus : string)
  (c c' : Contract) : Prop :=
  (forall k, k <> record_key recordId -> stored c' k = stored c k)
  /\ exists r,
      decode_record recordId (stored c (record_key recordId)) = Normal r
      /\ decode_record recordId (stored c' (record_key recordId))
         = Normal (row_with_status (JStr newStatus) r).

(** The refresh gets as far as its loop, which visits [items]: a
    read-only contract is at hand, the probe answers [true], the index
    key is read, and the value left in [keys] can be iterated. *)
Definition index_loaded (w : World) (items : list json) : Prop :=
  reader w = true
  /\ probe_fault (chain w) = None
  /\ available (chain w) = true
  /\ read_faults (chain w) !! "record_keys" = None
  /\ iterate (load_keys (stored (chain w) "record_keys")) = Normal items.

(** Every entry of a list of index entries has a text. *)
Definition printable (items : list json) : Prop :=
  Forall (fun key => unprintable key = false) items.

(** The comparator can convert the timestamp of the row, and the sort
    does not throw on the rows: it has nothing to compare, or it can
    compare every row. *)
Definition comparable (r : VoterRecord) : Prop :=
  exists t, ToNumber (timestamp r) = Normal t.

Definition sortable (rows : list VoterRecord) : Prop :=
  (length rows <= 1)%nat \/ Forall comparable rows.

(** The refresh step for one identifier in the words of the
    specification, to compare the loop with: fetch the record key; on
    fetch failure or decode failure skip the identifier; otherwise the
    record is the one whose fields are those of the payload, its
    identifier the one of the index, its status [pending] when the
    payload has none.  Bytes decode when they parse to a value other
    than [null]. *)
Definition payload_field (d : json) (name : string) : jsval :=
  match d with
  | JObj ps => lookup_prop name ps
  | _ => None
  end.

Definition expected_row (c : Contract) (key : json) : option VoterRecord :=
  match read_faults c !! record_key key with
  | Some _ => None
  | None =>
      if String.eqb (stored c (record_key key)) "" then None else
      match JSON_parse (stored c (record_key key)) with
      | Throw _ | Normal JNull => None
      | Normal d =>
          Some {| id := key;
                  encryptedData := payload_field d "data";
                  timestamp := payload_field d "timestamp";
                  owner := payload_field d "owner";
                  status := js_or (payload_field d "status") (JStr "pending");
                  region := payload_field d "region";
                  ageGroup := payload_field d "ageGroup" |}
      end
  end.

(** The record key and the payload of a registration, and the write
    sequence of a registration in the words of the specification, to
    compare [registerVoter] with: the record under its record key, then
    the index with the new identifier appended to the identifiers it
    held.  There is no second write when the value loaded for the index
    is not a list. *)
Definition new_record_key (now_id : Z) (suffix : string) : string :=
  "record_" +:+ new_recordId now_id suffix.

Definition new_payload (w : World) (now_ts : Z) : string :=
  JSON_stringify (new_recordData (app w) now_ts).


(** No call of the contract is refused. *)
Definition no_faults (c : Contract) : Prop :=
  probe_fault c = None /\ read_faults c = ∅ /\ write_faults c = ∅.

(** The engine writes a non-empty text for [v] and reads it back as
    [v]. *)
Definition reads_back (v : json) : Prop :=
  JSON_stringify v <> "" /\ JSON_parse (JSON_stringify v) = Normal v.

End Summaries.

(** ** A reference runtime

    A runnable instance of [JSRuntime]: the JSON text codec on the
    values of [json] (no insignificant white space on output, the short
    escapes and [\u00XX] for control characters), base-64 for [btoa],
    and the reading of decimal integer literals for [StringToNumber].
    It serves to run the operations on concrete worlds. *)
Module Ref.

Definition dquote : ascii := "034"%char.
Definition backslash : ascii := "\"%char.

Definition hex_digit (n : N) : ascii :=
  (if n <? 10 then ascii_of_N (48 + n) else ascii_of_N (87 + n))%N.

Definition hex_value (c : ascii) : option N :=
  let n := N_of_ascii c in
  (if (48 <=? n) && (n <=? 57) then Some (n - 48)
   else if (97 <=? n) && (n <=? 102) then Some (n - 87)
   else if (65 <=? n) && (n <=? 70) then Some (n - 55)
   else None)%N.

(** [QuoteJSONString], one character. *)
Definition escape_char (c : ascii) : string :=
  let n := N_of_ascii c in
  if Ascii.eqb c dquote then String backslash (String dquote "")
  else if Ascii.eqb c backslash then String backslash (String backslash "")
  else if (n =? 8)%N then "\b"
  else if (n =? 9)%N then "\t"
  else if (n =? 10)%N then "\n"
  else if (n =? 12)%N then "\f"
  else if (n =? 13)%N then "\r"
  else if (n <? 32)%N then
    "\u00" +:+ String (hex_digit (n / 16)) (String (hex_digit (n mod 16)) "")
  else String c "".

Fixpoint escape (s : string) : string :=
  match s with
  | EmptyString => ""
  | String c r => escape_char c +:+ escape r
  end.

Definition quote (s : string) : string :=
  String dquote (escape s +:+ String dquote "").

Fixpoint stringify (v : json) : string :=
  match v with
  | JNull => "null"
  | JBool true => "true"
  | JBool false => "false"
  | JNum n => Z_to_string n
  | JStr s => quote s
  | JArr l => "[" +:+ join "," (map stringify l) +:+ "]"
  | JObj ps =>
      "{" +:+ join "," (map (fun p => quote (fst p) +:+ ":" +:+ stringify (snd p)) ps)
          +:+ "}"
  end.

Definition is_ws (c : ascii) : bool :=
  let n := N_of_ascii c in
  ((n =? 32) || (n =? 9) || (n =? 10) || (n =? 13))%N.

Fixpoint skip_ws (s : string) : string :=
  match s with
  | String c r => if is_ws c then skip_ws r else s
  | EmptyString => s
  end.

Definition digit_of (c : ascii) : option (Decimal.uint -> Decimal.uint) :=
  match N_of_ascii c with
  | 48%N => Some Decimal.D0 | 49%N => Some Decimal.D1
  | 50%N => Some Decimal.D2 | 51%N => Some Decimal.D3
  | 52%N => Some Decimal.D4 | 53%N => Some Decimal.D5
  | 54%N => Some Decimal.D6 | 55%N => Some Decimal.D7
  | 56%N => Some Decimal.D8 | 57%N => Some Decimal.D9
  | _ => None
  end.

(** The longest run of digits at the head of [s], and what follows. *)
Fixpoint read_uint (s : string) : Decimal.uint * string :=
  match s with
  | String c r =>
      match digit_of c with
      | Some d => let (u, r') := read_uint r in (d u, r')
      | None => (Decimal.Nil, s)
      end
  | EmptyString => (Decimal.Nil, s)
  end.

(** Does a fraction or an exponent follow?  Such numerals are not
    integers and are refused. *)
Definition starts_fraction (s : string) : bool :=
  match s with
  | String c _ =>
      Ascii.eqb c "."%char || Ascii.eqb c "e"%char || Ascii.eqb c "E"%char
  | EmptyString => false
  end.

Definition well_formed_digits (u : Decimal.uint) : bool :=
  match u with
  | Decimal.Nil => false
  | Decimal.D0 Decimal.Nil => true
  | Decimal.D0 _ => false
  | _ => true
  end.

Definition parse_number (s : string) : option (json * string) :=
  let (neg, body) :=
    match s with
    | String c r => if Ascii.eqb c "-"%char then (true, r) else (false, s)
    | EmptyString => (false, s)
    end in
  let (u, r) := read_uint body in
  if well_formed_digits u && negb (starts_fraction r) then
    Some (JNum (Z.of_int (if neg then Decimal.Neg u else Decimal.Pos u)), r)
  else None.

(** The characters of a string literal after its opening quote, up to
    and including the closing quote. *)
Fixpoint parse_chars (s : string) : option (string * string) :=
  match s with
  | EmptyString => None
  | String c r =>
      if Ascii.eqb c dquote then Some ("", r)
      else if Ascii.eqb c backslash then
        match r with
        | String e r1 =>
            let continue (c' : ascii) (tl : option (string * string)) :=
              match tl with
              | Some (str, r') => Some (String c' str, r')
              | None => None
              end in
            if Ascii.eqb e dquote then continue dquote (parse_chars r1)
            else if Ascii.eqb e backslash then continue backslash (parse_chars r1)
            else if Ascii.eqb e "/"%char then continue "/"%char (parse_chars r1)
            else if Ascii.eqb e "b"%char then continue "008"%char (parse_chars r1)
            else if Ascii.eqb e "t"%char then continue "009"%char (parse_chars r1)
            else if Ascii.eqb e "n"%char then continue "010"%char (parse_chars r1)
            else if Ascii.eqb e "f"%char then continue "012"%char (parse_chars r1)
            else if Ascii.eqb e "r"%char then continue "013"%char (parse_chars r1)
            else if Ascii.eqb e "u"%char then
              match r1 with
              | String h1 (String h2 (String h3 (String h4 r2))) =>
                  match hex_value h1, hex_value h2, hex_value h3, hex_value h4 with
                  | Some 0%N, Some 0%N, Some a, Some b =>
                      continue (ascii_of_N (16 * a + b)) (parse_chars r2)
                  | _, _, _, _ => None
                  end
              | _ => None
              end
            else None
        | EmptyString => None
        end
      else if (N_of_ascii c <? 32)%N then None
      else
        match parse_chars r with
        | Some (str, r') => Some (String c str, r')
        | None => None
        end
  end.

Definition expect (c : ascii) (s : string) : option string :=
  match s with
  | String c' r => if Ascii.eqb c c' then Some r else None
  | EmptyString => None
  end.

(** [s] without its prefix [word]. *)
Fixpoint strip_prefix (word s : string) : option string :=
  match word with
  | EmptyString => Some s
  | String c word' =>
      match s with
      | String c' s' => if Ascii.eqb c c' then strip_prefix word' s' else None
      | EmptyString => None
      end
  end.

Definition literal (word : string) (v : json) (s : string)
  : option (json * string) :=
  match strip_prefix word s with
  | Some r => Some (v, r)
  | None => None
  end.

(** Recursive descent; [fuel] bounds the number of nested calls. *)
Fixpoint parse_value (fuel : nat) (s : string) : option (json * string) :=
  match fuel with
  | O => None
  | S fuel' =>
      match skip_ws s with
      | EmptyString => None
      | String c r =>
          if Ascii.eqb c "n"%char then literal "null" JNull (String c r)
          else if Ascii.eqb c "t"%char then literal "true" (JBool true) (String c r)
          else if Ascii.eqb c "f"%char then literal "false" (JBool false) (String c r)
          else if Ascii.eqb c dquote then
            match parse_chars r with
            | Some (str, r') => Some (JStr str, r')
            | None => None
            end
          else if Ascii.eqb c "["%char then
            match skip_ws r with
            | String c' r' =>
                if Ascii.eqb c' "]"%char then Some (JArr [], r')
                else match parse_items fuel' r with
                     | Some (l, r'') => Some (JArr l, r'')
                     | None => None
                     end
            | EmptyString => None
            end
          else if Ascii.eqb c "{"%char then
            match skip_ws r with
            | String c' r' =>
                if Ascii.eqb c' "}"%char then Some (JObj [], r')
                else match parse_members fuel' r with
                     | Some (ps, r'') => Some (JObj ps, r'')
                     | None => None
                     end
            | EmptyString => None
            end
          else parse_number (String c r)
      end
  end
with parse_items (fuel : nat) (s : string) : option (list json * string) :=
  match fuel with
  | O => None
  | S fuel' =>
      match parse_value fuel' s with
      | Some (v, r) =>
          match skip_ws r with
          | String c r' =>
              if Ascii.eqb c "]"%char then Some ([v], r')
              else if Ascii.eqb c ","%char then
                match parse_items fuel' r' with
                | Some (l, r'') => Some (v :: l, r'')
                | None => None
                end
              else None
          | EmptyString => None
          end
      | None => None
      end
  end
with parse_members (fuel : nat) (s : string)
  : option (list (string * json) * string) :=
  match fuel with
  | O => None
  | S fuel' =>
      match expect dquote (skip_ws s) with
      | Some r0 =>
          match parse_chars r0 with
          | Some (k, r1) =>
              match expect ":"%char (skip_ws r1) with
              | Some r2 =>
                  match parse_value fuel' r2 with
                  | Some (v, r3) =>
                      match skip_ws r3 with
                      | String c r4 =>
                          if Ascii.eqb c "}"%char then Some ([(k, v)], r4)
                          else if Ascii.eqb c ","%char then
                            match parse_members fuel' r4 with
                            | Some (ps, r5) => Some ((k, v) :: ps, r5)
                            | None => None
                            end
                          else None
                      | EmptyString => None
                      end
                  | None => None
                  end
              | None => None
              end
          | None => None
          end
      | None => None
      end
  end.

Definition parse (s : string) : completion json :=
  match parse_value (S (String.length s)) s with
  | Some (v, r) =>
      match skip_ws r with
      | EmptyString => Normal v
      | String _ _ => Throw (JsError "Unexpected non-whitespace character after JSON")
      end
  | None => Throw (JsError "Unexpected token in JSON")
  end.

(** Base-64, the alphabet of [btoa]. *)
Definition b64_char (n : N) : ascii :=
  (if n <? 26 then ascii_of_N (65 + n)
   else if n <? 52 then ascii_of_N (71 + n)
   else if n <? 62 then ascii_of_N (n - 4)
   else if n =? 62 then "+"%char else "/"%char)%N.

Fixpoint base64 (s : string) : string :=
  match s with
  | EmptyString => ""
  | String a EmptyString =>
      let x := N_of_ascii a in
      String (b64_char (x / 4)) (String (b64_char ((x mod 4) * 16)) "==")
  | String a (String b EmptyString) =>
      let x := N_of_ascii a in
      let y := N_of_ascii b in
      String (b64_char (x / 4))
        (String (b64_char ((x mod 4) * 16 + y / 16))
           (String (b64_char ((y mod 16) * 4)) "="))
  | String a (String b (String c r)) =>
      let x := N_of_ascii a in
      let y := N_of_ascii b in
      let z := N_of_ascii c in
      String (b64_char (x / 4))
        (String (b64_char ((x mod 4) * 16 + y / 16))
           (String (b64_char ((y mod 16) * 4 + z / 64))
              (String (b64_char (z mod 64)) (base64 r))))
  end%N.

Definition string_to_number (s : string) : option Z :=
  match s with
  | EmptyString => Some 0
  | _ =>
      match parse_number s with
      | Some (JNum n, EmptyString) => Some n
      | _ => None
      end
  end.

(** *** Measures for the round trip of the codec *)

Definition is_digit (c : ascii) : bool :=
  match digit_of c with Some _ => true | None => false end.

(** [rest] cannot prolong a numeral. *)
Definition ends_number (rest : string) : Prop :=
  match rest with
  | EmptyString => True
  | String c _ => is_digit c = false /\ starts_fraction rest = false
  end.

(** The first character of a serialised value. *)
Definition value_start (c : ascii) : bool :=
  is_digit c || Ascii.eqb c "-" || Ascii.eqb c "n" || Ascii.eqb c "t"
  || Ascii.eqb c "f" || Ascii.eqb c dquote || Ascii.eqb c "["
  || Ascii.eqb c "{".

(** The text of one member of an object. *)
Definition member_text (p : string * json) : string :=
  quote (fst p) +:+ ":" +:+ stringify (snd p).

Definition chain_need (ns : list nat) : nat :=
  fold_right (fun n acc => S (Nat.max n acc)) 0%nat ns.

(** Fuel that suffices to parse the text of a value. *)
Fixpoint need (v : json) : nat :=
  match v with
  | JArr l => S (chain_need (map need l))
  | JObj ps => S (chain_need (map (fun p => need (snd p)) ps))
  | _ => 1
  end.

(** With enough fuel, parsing the text of [v] followed by [rest] gives
    [v] and leaves [rest]. *)
Definition parses_back (v : json) : Prop :=
  forall fuel rest,
    (need v <= fuel)%nat -> ends_number rest ->
    parse_value fuel (stringify v +:+ rest) = Some (v, rest).

Definition error_of (f : js_fault) : exn :=
  match f with
  | NotIterable => JsError "keys is not iterable"
  | NotAFunction => JsError "is not a function"
  | ReadOfNullish => JsError "Cannot read properties of null"
  | NoPrimitiveValue => JsError "Cannot convert object to primitive value"
  end.

(** The exponent form of an integer: its first digit, the digits after
    it up to the last that is not zero, and the count of digits after
    the first.  This is [Number::toString] on the integers whose
    digits, trailing zeros apart, are the shortest that read back as
    the same number. *)
Fixpoint drop_trailing_zeros (s : string) : string :=
  match s with
  | EmptyString => EmptyString
  | String c r =>
      match drop_trailing_zeros r with
      | EmptyString => if Ascii.eqb c "0" then EmptyString
                       else String c EmptyString
      | r' => String c r'
      end
  end.

Definition exponent_form (n : Z) : string :=
  match Z_to_string (Z.abs n) with
  | EmptyString => "0"
  | String d rest =>
      (if (n <? 0)%Z then "-" else "")
      +:+ String d (match drop_trailing_zeros rest with
                    | EmptyString => ""
                    | m => "." +:+ m
                    end)
      +:+ "e+" +:+ Z_to_string (Z.of_nat (String.length rest))
  end.

#[global] Instance runtime : JSRuntime := {|
  JSON_parse := parse;
  JSON_stringify := stringify;
  btoa := base64;
  StringToNumber := string_to_number;
  exponent_text := exponent_form;
  engine_error := error_of
|}.

End Ref.

(** ** Concrete worlds

    Small worlds over the reference runtime, on which the operations
    are run. *)
Module Scenario.
Import Ref.

Definition alice : Voter :=
  {| v_id := "a"; v_encryptedData := "FHE-e30="; v_timestamp := 100;
     v_owner := "0xA11CE"; v_status := pending; v_region := "North";
     v_ageGroup := "18-30" |}.

Definition bob : Voter :=
  {| v_id := "b"; v_encryptedData := "FHE-e30="; v_timestamp := 200;
     v_owner := "0xB0B"; v_status := pending; v_region := "South";
     v_ageGroup := "31-45" |}.

Definition idle : TxStatus :=
  {| tx_visible := false; tx_status := tx_pending; tx_message := "" |}.

Definition form : FormData :=
  {| form_region := "North"; form_ageGroup := "18-30";
     form_sensitiveInfo := "x" |}.

(** A connected session of [acct] showing the rows [shown]. *)
Definition session (acct : string) (shown : list VoterRecord) : AppState :=
  {| account := acct; provider := true; records := shown; loading := false;
     isRefreshing := false; registering := false;
     transactionStatus := idle; newRecordData := form |}.

(** A contract without faults holding [data]. *)
Definition contract (up : bool) (data : list (string * string)) : Contract :=
  {| available := up; storage := list_to_map data; probe_fault := None;
     read_faults := ∅; write_faults := ∅ |}.

Definition world (a : AppState) (c : Contract) : World :=
  {| app := a; chain := c; reader := true; signer := true; trace := [] |}.

Definition index_of (ids : list string) : string :=
  stringify (JArr (map JStr ids)).

Definition corrupt : string := "{corrupt".

(** Index [a, b]; a valid record for [a], corrupt bytes for [b]. *)
Definition one_valid_one_corrupt : World :=
  world (session "0xA11CE" [])
        (contract true [("record_keys", index_of ["a"; "b"]);
                        ("record_a", stringify (encode alice));
                        ("record_b", corrupt)]).

(** Index [a, b]; timestamps 100 for [a] and 200 for [b]. *)
Definition two_records : World :=
  world (session "0xA11CE" [])
        (contract true [("record_keys", index_of ["a"; "b"]);
                        ("record_a", stringify (encode alice));
                        ("record_b", stringify (encode bob))]).

(** The record of [alice] is stored; the session is [bob]'s. *)
Definition bob_looks_at_alice : World :=
  world (session "0xB0B" [row_of alice])
        (contract true [("record_keys", index_of ["a"]);
                        ("record_a", stringify (encode alice))]).

(** The record of [alice], pending, in her own session. *)
Definition alice_pending : World :=
  world (session "0xA11CE" [row_of alice])
        (contract true [("record_keys", index_of ["a"]);
                        ("record_a", stringify (encode alice))]).

(** The record of [alice], already verified, in her own session. *)
Definition alice_verified : World :=
  world (session "0xA11CE" [row_of (set_status verified alice)])
        (contract true [("record_keys", index_of ["a"]);
                        ("record_a",
                         stringify (encode (set_status verified alice)))]).

(** The same store as [two_records], with the probe answering [false]. *)
Definition unavailable : World :=
  world (session "0xA11CE" [row_of alice])
        (contract false [("record_keys", index_of ["a"; "b"]);
                         ("record_a", stringify (encode alice));
                         ("record_b", stringify (encode bob))]).

(** Index bytes that do not parse, with [alice]'s record stored. *)
Definition corrupt_index : World :=
  world (session "0xB0B" [])
        (contract true [("record_keys", corrupt);
                        ("record_a", stringify (encode alice))]).

(** Index [a, b]; a valid record for [a], the bytes [5] for [b]. *)
Definition record_is_a_number : World :=
  world (session "0xA11CE" [])
        (contract true [("record_keys", index_of ["a"; "b"]);
                        ("record_a", stringify (encode alice));
                        ("record_b", "5")]).


(** Empty store. *)
Definition fresh : World :=
  world (session "0xA11CE" []) (contract true []).





End Scenario.

(** ** The rest of [App.tsx]

    The wallet handlers, the mount effect, the statistics of the
    dashboard, the cells of a row and the registration form. *)

Definition put_account (acct : string) (a : AppState) : AppState :=
  {| account := acct; provider := provider a; records := records a;
     loading := loading a; isRefreshing := isRefreshing a;
     registering := registering a;
     transactionStatus := transactionStatus a;
     newRecordData := newRecordData a |}.

Definition put_provider (b : bool) (a : AppState) : AppState :=
  {| account := account a; provider := b; records := records a;
     loading := loading a; isRefreshing := isRefreshing a;
     registering := registering a;
     transactionStatus := transactionStatus a;
     newRecordData := newRecordData a |}.

Definition put_newRecordData (f : FormData) (a : AppState) : AppState :=
  {| account := account a; provider := provider a; records := records a;
     loading := loading a; isRefreshing := isRefreshing a;
     registering := registering a;
     transactionStatus := transactionStatus a;
     newRecordData := f |}.

Definition setAccount (acct : string) : M unit := set_state (put_account acct).
Definition setProvider (b : bool) : M unit := set_state (put_provider b).
Definition setNewRecordData (f : FormData) : M unit :=
  set_state (put_newRecordData f).

(** The wallet handed to [onWalletSelect], by what the handler does
    with it: whether [wallet.provider] is set, whether
    [new ethers.BrowserProvider(..)] throws, what
    [send("eth_requestAccounts", [])] completes with, and whether
    [wallet.provider.on(..)] throws. *)
Record Wallet : Type := {
  wallet_provider : bool;
  construct_fault : option exn;
  requested_accounts : completion (list string);
  subscribe_fault : option exn
}.

Definition may_throw (f : option exn) : completion unit :=
  match f with
  | Some e => Throw e
  | None => Normal tt
  end.

(** [accounts[0] || ""]. *)
Definition first_account (accounts : list string) : string :=
  match accounts with
  | [] => ""
  | acc :: _ => if negb (String.eqb acc "") then acc else ""
  end.

Section MoreOperations.
Context `{rt : JSRuntime}.

(** [onWalletSelect] (lines 49-65). *)
Definition onWalletSelect (wallet : Wallet) : M unit :=
  if negb (wallet_provider wallet) then mret tt else
  try_catch
    (lift (may_throw (construct_fault wallet)) ;;
     setProvider true ;;
     accounts ← lift (requested_accounts wallet);
     setAccount (first_account accounts) ;;
     lift (may_throw (subscribe_fault wallet)))
    (fun _ => alert "Failed to connect wallet").

(** The listener registered for ["accountsChanged"] (lines 58-61). *)
Definition onAccountsChanged (accounts : list string) : M unit :=
  setAccount (first_account accounts).

(** [onDisconnect] (lines 68-71). *)
Definition onDisconnect : M unit :=
  setAccount "" ;; setProvider false.

(** The mount effect: [loadRecords().finally(() => setLoading(false))]
    (lines 45-47). *)
Definition on_mount : M unit :=
  try_finally loadRecords (setLoading false).

(** [records.filter(r => r.status === s).length] (lines 41-43). *)
Definition count_status (s : string) (l : list VoterRecord) : nat :=
  length (List.filter (fun r => is_string (status r) s) l).

Definition verifiedCount (a : AppState) : nat :=
  count_status "verified" (records a).
Definition pendingCount (a : AppState) : nat :=
  count_status "pending" (records a).
Definition rejectedCount (a : AppState) : nat :=
  count_status "rejected" (records a).

(** [records.length || 1], the denominator of the pie chart
    (line 386). *)
Definition pie_total (a : AppState) : nat :=
  match length (records a) with
  | O => 1%nat
  | n => n
  end.

(** [v.substring(0, n)] for a value read off a row. *)
Definition substring_to (n : nat) (v : jsval) : completion string :=
  match v with
  | Some (JStr s) => Normal (String.substring 0 n s)
  | None | Some JNull => Throw (engine_error ReadOfNullish)
  | Some _ => Throw (engine_error NotAFunction)
  end.

(** The text of the ID cell, [#{record.id.substring(0, 6)}]
    (line 580). *)
Definition id_cell (r : VoterRecord) : completion string :=
  label ← substring_to 6 (Some (id r));
  Normal ("#" +:+ label).

(** The text of the expanded row's data cell,
    [{record.encryptedData.substring(0, 80)}...] (line 623). *)
Definition encrypted_cell (r : VoterRecord) : completion string :=
  head ← substring_to 80 (encryptedData r);
  Normal (head +:+ "...").

(** The inputs of the registration form, by their [name]. *)
Inductive input_name : Type := in_region | in_ageGroup | in_sensitiveInfo.

(** [{ ...recordData, [name]: value }]. *)
Definition with_input (name : input_name) (value : string) (f : FormData)
  : FormData :=
  match name with
  | in_region =>
      {| form_region := value; form_ageGroup := form_ageGroup f;
         form_sensitiveInfo := form_sensitiveInfo f |}
  | in_ageGroup =>
      {| form_region := form_region f; form_ageGroup := value;
         form_sensitiveInfo := form_sensitiveInfo f |}
  | in_sensitiveInfo =>
      {| form_region := form_region f; form_ageGroup := form_ageGroup f;
         form_sensitiveInfo := value |}
  end.

(** [handleChange] of [ModalRegistration] (lines 717-723);
    [recordData] and [setRecordData] are [newRecordData] and its
    setter. *)
Definition handleChange (name : input_name) (value : string) : M unit :=
  a ← get_state;
  setNewRecordData (with_input name value (newRecordData a)).

(** [handleSubmit] of [ModalRegistration] (lines 725-732); [onSubmit]
    is [registerVoter]. *)
Definition handleSubmit (now_id now_ts : Z) (suffix : string) : M unit :=
  a ← get_state;
  if negb (nonempty (form_region (newRecordData a)))
     || negb (nonempty (form_sensitiveInfo (newRecordData a)))
  then alert "Please fill required fields"
  else registerVoter now_id now_ts suffix.

(** The contract calls of a trace. *)
Definition contract_calls (tr : list event) : list event :=
  List.filter (fun e => match e with
                        | CallIsAvailable | CallGetData _ | CallSetData _ _ => true
                        | ConsoleError _ | Alert _ => false
                        end) tr.

(** A status the interface allows. *)
Definition known_status (r : VoterRecord) : Prop :=
  status r = JStr "pending" \/ status r = JStr "verified"
  \/ status r = JStr "rejected".

(** The record [registerVoter] builds (lines 155-164), as the
    interface types it. *)
Definition registered (a : AppState) (now_id now_ts : Z) (suffix : string)
  : Voter :=
  {| v_id := new_recordId now_id suffix;
     v_encryptedData :=
       "FHE-" +:+ btoa (JSON_stringify (form_json (newRecordData a)));
     v_timestamp := now_ts / 1000;
     v_owner := account a;
     v_status := pending;
     v_region := form_region (newRecordData a);
     v_ageGroup := form_ageGroup (newRecordData a) |}.

(** The row [registerVoter] stores, as a refresh decodes it. *)
Definition new_row (a : AppState) (now_id now_ts : Z) (suffix : string)
  : VoterRecord :=
  {| id := JStr (new_recordId now_id suffix);
     encryptedData :=
       Some (JStr ("FHE-" +:+
                     btoa (JSON_stringify (form_json (newRecordData a)))));
     timestamp := Some (JNum (now_ts / 1000));
     owner := Some (JStr (account a));
     status := JStr "pending";
     region := Some (JStr (form_region (newRecordData a)));
     ageGroup := Some (JStr (form_ageGroup (newRecordData a))) |}.

End MoreOperations.

(** More concrete worlds, over the reference runtime. *)
Module Cases.
Import Ref.

(** The index lists [a] twice. *)
Definition listed_twice : World :=
  Scenario.world (Scenario.session "0xA11CE" [])
    (Scenario.contract true
       [("record_keys", Scenario.index_of ["a"; "a"]);
        ("record_a", stringify (encode Scenario.alice))]).

(** A payload without an owner, listed under [a]. *)
Definition ownerless : World :=
  Scenario.world (Scenario.session "0xA11CE" [])
    (Scenario.contract true
       [("record_keys", Scenario.index_of ["a"]);
        ("record_a",
         stringify (JObj [("data", JStr "FHE-e30="); ("timestamp", JNum 100);
                          ("region", JStr "North")]))]).

(** The bytes [5] under the record key of [a]. *)
Definition number_payload : World :=
  Scenario.world (Scenario.session "0xA11CE" [])
    (Scenario.contract true
       [("record_keys", Scenario.index_of ["a"]); ("record_a", "5")]).

(** [setData] of a new record is refused by the user. *)
Definition refusing : World :=
  Scenario.world (Scenario.session "0xA11CE" [])
    {| available := true;
       storage := list_to_map [("record_keys", Scenario.index_of ["a"]);
                               ("record_a", stringify (encode Scenario.alice))];
       probe_fault := None;
       read_faults := ∅;
       write_faults :=
         {[ "record_1700000000000-k3x9q2a"
            := JsError "ethers: user rejected transaction (action=sendTransaction)" ]} |}.

(** A session without a wallet. *)
Definition disconnected : World :=
  Scenario.world
    {| account := ""; provider := false; records := [row_of Scenario.alice];
       loading := false; isRefreshing := false; registering := false;
       transactionStatus := Scenario.idle; newRecordData := Scenario.form |}
    (Scenario.contract true
       [("record_keys", Scenario.index_of ["a"]);
        ("record_a", stringify (encode Scenario.alice))]).

(** A wallet that connects, and one whose account request is refused. *)
Definition good_wallet : Wallet :=
  {| wallet_provider := true; construct_fault := None;
     requested_accounts := Normal ["0xB0B"; "0xC0C"];
     subscribe_fault := None |}.

Definition refusing_wallet : Wallet :=
  {| wallet_provider := true; construct_fault := None;
     requested_accounts := Throw (JsError "User rejected the request.");
     subscribe_fault := None |}.

(** The row of [a] is on display; the index now lists an object with
    an own [toString] before [a]. *)
Definition shown_then_spoilt : World :=
  Scenario.world (Scenario.session "0xA11CE" [row_of Scenario.alice])
    (Scenario.contract true
       [("record_keys",
         stringify (JArr [JObj [("toString", JNum 5)]; JStr "a"]));
        ("record_a", stringify (encode Scenario.alice))]).

(** A form with the region left unselected. *)
Definition no_region : World :=
  Scenario.world
    {| account := "0xA11CE"; provider := true; records := [];
       loading := false; isRefreshing := false; registering := false;
       transactionStatus := Scenario.idle;
       newRecordData :=
         {| form_region := ""; form_ageGroup := "18-30";
            form_sensitiveInfo := "x" |} |}
    (Scenario.contract true []).

End Cases.

(** * Properties *)

Arguments stored : simpl never.
Arguments write : simpl never.
Arguments loadRecords : simpl never.

Ltac run :=
  unfold mbind, mret, M_bind, M_ret, completion_bind, completion_ret,
    try_catch, try_finally, lift, throw, console_error, alert, emit,
    setRecords, setLoading, setIsRefreshing, setRegistering,
    setTransactionStatus, set_state, get_state,
    getContractReadOnly, getContractWithSigner.

Ltac unfold_world :=
  cbv beta iota delta
    [with_app with_chain logs log refreshed tx apply_writes foldl fst snd
     put_records put_loading put_isRefreshing put_registering
     put_transactionStatus
     app chain reader signer trace
     account provider records loading isRefreshing registering
     transactionStatus newRecordData].

Ltac same_world :=
  unfold_world; rewrite <- ?app_assoc, ?app_nil_r; simpl; try done.

Section Theory.
Context `{rt : JSRuntime}.

Lemma logs_logs (es1 es2 : list event) (w : World) :
  logs es2 (logs es1 w) = logs (es1 ++ es2) w.
Proof. unfold logs; simpl. by rewrite app_assoc. Qed.

Lemma logs_nil (w : World) : logs [] w = w.
Proof. destruct w; unfold logs; simpl. by rewrite app_nil_r. Qed.

Lemma log_logs (e : event) (w : World) : log e w = logs [e] w.
Proof. reflexivity. Qed.

Lemma load_one_run (key : json) (acc : list VoterRecord) (w : World) :
  load_one key acc w
  = if unprintable key then (Throw (engine_error NoPrimitiveValue), w)
    else (Normal (acc ++ option_list (fetch (chain w) key)),
          logs (fetch_events (chain w) key) w).
Proof.
  unfold load_one, ToString, fetch, fetch_events, record_key, getData. run.
  destruct (unprintable key); simpl; [done|].
  rewrite !log_logs.
  destruct (read_faults (chain w) !! _) as [e|]; simpl.
  - by rewrite app_nil_r, log_logs, logs_logs.
  - destruct (nonempty _); simpl.
    + destruct (decode_record _ _) as [r|e]; simpl.
      * done.
      * by rewrite app_nil_r, log_logs, logs_logs.
    + by rewrite app_nil_r.
Qed.

Lemma load_loop_run (keys : list json) (acc : list VoterRecord) (w : World) :
  load_loop keys acc w
  = (if existsb unprintable keys
     then Throw (engine_error NoPrimitiveValue)
     else Normal (acc ++ omap (fetch (chain w)) keys),
     logs (concat (map (fetch_events (chain w)) (visited keys))) w).
Proof.
  revert acc w. induction keys as [|key keys IH]; intros acc w; simpl.
  - by rewrite app_nil_r, logs_nil.
  - unfold mbind at 1, M_bind. rewrite load_one_run.
    destruct (unprintable key); simpl; [by rewrite logs_nil|].
    rewrite IH. simpl. rewrite logs_logs. f_equal.
    destruct (existsb unprintable keys); [done|].
    f_equal. rewrite <- app_assoc. f_equal.
    by destruct (fetch (chain w) key).
Qed.

Lemma parse_keys_run (msg keysBytes : string) (w : World) :
  parse_keys msg keysBytes w
  = (Normal (load_keys keysBytes), logs (load_keys_events msg keysBytes) w).
Proof.
  unfold parse_keys, load_keys, load_keys_events. run.
  destruct (nonempty keysBytes); simpl.
  - destruct (JSON_parse keysBytes); simpl; by rewrite ?logs_nil.
  - by rewrite logs_nil.
Qed.

Lemma loadRecords_run (w : World) :
  loadRecords w
  = (Normal tt,
     with_app (refreshed (fst (refresh_outcome w)))
              (logs (snd (refresh_outcome w)) w)).
Proof.
  unfold loadRecords, refresh_outcome, isAvailable, getData. run. simpl.
  destruct (reader w); simpl; [|same_world].
  destruct (probe_fault (chain w)) as [e|]; simpl; [same_world|].
  destruct (available (chain w)); simpl; [|same_world].
  destruct (read_faults (chain w) !! "record_keys") as [e|]; simpl;
    [same_world|].
  rewrite parse_keys_run; simpl.
  destruct (iterate _) as [items|e]; simpl; [|same_world].
  rewrite load_loop_run; simpl.
  destruct (existsb unprintable items); simpl; [same_world|].
  destruct (sort _ _) as [rows|e]; simpl; same_world.
Qed.

Lemma loadRecords_normal (w : World) : fst (loadRecords w) = Normal tt.
Proof. by rewrite loadRecords_run. Qed.

Lemma transition_run (newStatus okMessage failPrefix : string)
  (recordId : json) (w : World) :
  transition newStatus okMessage failPrefix recordId w
  = if provider (app w) then
      let w0 :=
        with_app (put_transactionStatus
                    (tx tx_pending "Processing encrypted data with FHE...")) w in
      match transition_attempt newStatus recordId w with
      | (es, inl e) =>
          (Normal tt,
           with_app (put_transactionStatus
                       (tx tx_error (failPrefix +:+ message_or_unknown e)))
                    (logs es w0))
      | (es, inr new) =>
          loadRecords
            (with_app (put_transactionStatus (tx tx_success okMessage))
               (with_chain (write (record_key recordId) new) (logs es w0)))
      end
    else (Normal tt, log (Alert "Please connect wallet first") w).
Proof.
  unfold transition, transition_attempt, record_key, getData, setData, tx.
  run. simpl.
  destruct (provider (app w)); simpl; [|done].
  destruct (signer w); simpl; [|same_world].
  destruct (read_faults (chain w) !! _) as [e|]; simpl; [same_world|].
  destruct (nonempty _); simpl; [|same_world].
  destruct (JSON_parse _) as [d|e]; simpl; [|same_world].
  destruct (write_faults (chain w) !! _) as [e|]; simpl; [same_world|].
  match goal with |- context [loadRecords ?x] =>
    pose proof (loadRecords_normal x) as Hn;
    destruct (loadRecords x) as [r w'] eqn:E end.
  simpl in Hn; subst r. rewrite <- E. f_equal. same_world.
Qed.

Lemma registerVoter_run (now_id now_ts : Z) (suffix : string) (w : World) :
  registerVoter now_id now_ts suffix w
  = if provider (app w) then
      let w0 :=
        with_app (put_transactionStatus
                    (tx tx_pending "Encrypting voter data with FHE..."))
                 (with_app (put_registering true) w) in
      match register_attempt now_id now_ts suffix w with
      | (es, ws, Some e) =>
          (Normal tt,
           with_app (put_registering false)
             (with_app (put_transactionStatus
                          (tx tx_error (registration_error_text e)))
                (with_chain (apply_writes ws) (logs es w0))))
      | (es, ws, None) =>
          (Normal tt,
           with_app (put_registering false)
             (snd (loadRecords
                     (with_app (put_transactionStatus
                                  (tx tx_success
                                      "Voter registration submitted securely!"))
                        (with_chain (apply_writes ws) (logs es w0))))))
      end
    else (Normal tt, log (Alert "Please connect wallet first") w).
Proof.
  unfold registerVoter, register_attempt, registration_error_text,
    getData, setData, tx.
  run. simpl.
  destruct (provider (app w)); simpl; [|done].
  destruct (signer w); simpl; [|same_world].
  destruct (write_faults (chain w) !! (_ +:+ _)) as [e|]; simpl;
    [same_world|].
  destruct (read_faults (chain w) !! "record_keys") as [e|]; simpl;
    [same_world|].
  rewrite parse_keys_run; simpl.
  destruct (push _ _) as [keys'|e]; simpl; [|same_world].
  destruct (write_faults (chain w) !! "record_keys") as [e|]; simpl;
    [same_world|].
  match goal with |- context [loadRecords ?x] =>
    pose proof (loadRecords_normal x) as Hn;
    destruct (loadRecords x) as [r w'] eqn:E;
    simpl in Hn; subst r; simpl;
    match goal with |- context [loadRecords ?y] =>
      replace y with x; [by rewrite E|]
    end
  end.
  same_world.
Qed.

(** *** Objects *)

Lemma lookup_set_prop_eq (k : string) (v : json) (ps : list (string * json)) :
  lookup_prop k (set_prop k v ps) = Some v.
Proof.
  induction ps as [|[k' v'] ps IH]; simpl.
  - by rewrite String.eqb_refl.
  - destruct (String.eqb k k') eqn:E; simpl.
    + by rewrite String.eqb_refl.
    + by rewrite E.
Qed.

Lemma lookup_set_prop_ne (k k0 : string) (v : json)
  (ps : list (string * json)) :
  k0 <> k -> lookup_prop k0 (set_prop k v ps) = lookup_prop k0 ps.
Proof.
  intros Hne. induction ps as [|[k' v'] ps IH]; simpl.
  - destruct (String.eqb k0 k) eqn:E; [|done].
    by apply String.eqb_eq in E.
  - destruct (String.eqb k k') eqn:E; simpl.
    + apply String.eqb_eq in E; subst k'.
      destruct (String.eqb k0 k) eqn:E'; [|done].
      by apply String.eqb_eq in E'.
    + by rewrite IH.
Qed.

Lemma nonempty_true (s : string) : s <> "" -> nonempty s = true.
Proof.
  intros Hs. unfold nonempty. destruct (String.eqb s "") eqn:E; [|done].
  by apply String.eqb_eq in E.
Qed.

Lemma nonempty_false (s : string) : nonempty s = false -> s = "".
Proof.
  unfold nonempty. destruct (String.eqb s "") eqn:E; [|done].
  intros _. by apply String.eqb_eq.
Qed.

Lemma js_or_nonempty (s : string) (d : json) :
  s <> "" -> js_or (Some (JStr s)) d = JStr s.
Proof.
  intros Hs. unfold js_or, truthy.
  by rewrite (nonempty_true s Hs : negb (String.eqb s "") = true).
Qed.

(** The row read off an object, and off the same object given another
    status: only the status differs. *)
Lemma build_record_object (key : json) (ps : list (string * json)) :
  build_record key (JObj ps)
  = Normal {| id := key;
              encryptedData := lookup_prop "data" ps;
              timestamp := lookup_prop "timestamp" ps;
              owner := lookup_prop "owner" ps;
              status := js_or (lookup_prop "status" ps) (JStr "pending");
              region := lookup_prop "region" ps;
              ageGroup := lookup_prop "ageGroup" ps |}.
Proof. reflexivity. Qed.

Lemma build_record_with_status (key : json) (ps : list (string * json))
  (newStatus : string) (r : VoterRecord) :
  newStatus <> "" ->
  build_record key (JObj ps) = Normal r ->
  build_record key (with_status (JObj ps) newStatus)
  = Normal (row_with_status (JStr newStatus) r).
Proof.
  intros Hs Hr. rewrite build_record_object in Hr.
  injection Hr as <-. unfold with_status, spread.
  rewrite build_record_object, lookup_set_prop_eq.
  rewrite !lookup_set_prop_ne by done.
  by rewrite js_or_nonempty.
Qed.

Lemma build_record_id (key d : json) (r : VoterRecord) :
  build_record key d = Normal r -> id r = key.
Proof.
  destruct d; try discriminate; cbv; by intros [= <-].
Qed.

Lemma decode_record_id (key : json) (bytes : string) (r : VoterRecord) :
  decode_record key bytes = Normal r -> id r = key.
Proof.
  unfold decode_record. destruct (JSON_parse bytes) as [d|]; simpl; [|done].
  apply build_record_id.
Qed.

(** *** The record codec *)

(** [encode] is what the code writes: the payload of a registration is
    the encoding of the new record, with status ["pending"], and a
    transition maps the encoding of a record to the encoding of the
    record with the new status. *)
Lemma new_recordData_encode (a : AppState) (now_ts : Z) (i : string) :
  new_recordData a now_ts
  = encode {| v_id := i;
              v_encryptedData :=
                "FHE-" +:+ btoa (JSON_stringify (form_json (newRecordData a)));
              v_timestamp := now_ts / 1000;
              v_owner := account a;
              v_status := pending;
              v_region := form_region (newRecordData a);
              v_ageGroup := form_ageGroup (newRecordData a) |}.
Proof. reflexivity. Qed.

Lemma with_status_encode (v : Voter) (s : Status) :
  with_status (encode v) (status_name s) = encode (set_status s v).
Proof. reflexivity. Qed.

End Theory.

(** ** Status transitions *)

Section Transitions.
Context `{rt : JSRuntime}.

Lemma stored_write_eq (k v : string) (c : Contract) :
  stored (write k v c) k = v.
Proof. unfold stored, write; simpl. by rewrite lookup_insert_eq. Qed.

Lemma stored_write_ne (k k' v : string) (c : Contract) :
  k' <> k -> stored (write k v c) k' = stored c k'.
Proof.
  intros Hne. unfold stored, write; simpl. by rewrite lookup_insert_ne.
Qed.

(** A ready transition writes the payload with the new status under the
    record key and ends on its success message. *)
Lemma transition_goes_through (newStatus okMessage failPrefix : string)
  (recordId recordData : json) (w : World) :
  ready recordId recordData w ->
  let w' := snd (transition newStatus okMessage failPrefix recordId w) in
  transactionStatus (app w') = tx tx_success okMessage
  /\ chain w'
     = write (record_key recordId)
             (JSON_stringify (with_status recordData newStatus)) (chain w).
Proof.
  intros (Hp & Hs & Hr & Hw & Hne & Hd). simpl.
  rewrite transition_run, Hp. unfold transition_attempt.
  rewrite Hs, Hr, (nonempty_true _ Hne), Hd, Hw. simpl.
  by rewrite loadRecords_run.
Qed.

Lemma transition_only_status (newStatus okMessage failPrefix : string)
  (recordId : json) (ps : list (string * json)) (w : World) :
  newStatus <> "" ->
  ready recordId (JObj ps) w ->
  reads_back (with_status (JObj ps) newStatus) ->
  let w' := snd (transition newStatus okMessage failPrefix recordId w) in
  succeeded w' /\ only_status_changed recordId newStatus (chain w) (chain w').
Proof.
  intros Hns Hready [Hne Hrb]. simpl.
  destruct (transition_goes_through newStatus okMessage failPrefix _ _ _ Hready)
    as [Htx Hc].
  split; [unfold succeeded; by rewrite Htx|].
  rewrite Hc. split.
  - intros k Hk. by apply stored_write_ne.
  - destruct Hready as (_ & _ & _ & _ & _ & Hd).
    exists (row_with_status (js_or (lookup_prop "status" ps) (JStr "pending"))
              {| id := recordId; encryptedData := lookup_prop "data" ps;
                 timestamp := lookup_prop "timestamp" ps;
                 owner := lookup_prop "owner" ps; status := JNull;
                 region := lookup_prop "region" ps;
                 ageGroup := lookup_prop "ageGroup" ps |}).
    split.
    + unfold decode_record. by rewrite Hd.
    + rewrite stored_write_eq. unfold decode_record. rewrite Hrb. simpl.
      by apply build_record_with_status.
Qed.

(** C10.  A transition that goes through rewrites the record under the
    same key and changes only its status: the row decoded afterwards is
    the row decoded before with the new status, so the identifier,
    [encryptedData], [timestamp], [owner], [region] and [ageGroup] are
    the same; every other key of the store is untouched. *)
Theorem transition_changes_only_status (recordId : json)
  (ps : list (string * json)) (w : World) :
  ready recordId (JObj ps) w ->
  reads_back (with_status (JObj ps) "verified") ->
  reads_back (with_status (JObj ps) "rejected") ->
  (succeeded (snd (verifyRecord recordId w))
   /\ only_status_changed recordId "verified"
        (chain w) (chain (snd (verifyRecord recordId w))))
  /\ (succeeded (snd (rejectRecord recordId w))
      /\ only_status_changed recordId "rejected"
           (chain w) (chain (snd (rejectRecord recordId w)))).
Proof.
  intros Hready Hv Hr. split.
  - unfold verifyRecord.
    apply (transition_only_status _ _ _ _ ps); [discriminate | exact Hready | exact Hv].
  - unfold rejectRecord.
    apply (transition_only_status _ _ _ _ ps); [discriminate | exact Hready | exact Hr].
Qed.

(** The buttons of a row need the owner test to answer [true] and the
    cached status to be ["pending"]. *)
Lemma row_buttons_guard (acct : string) (r : VoterRecord) (l : list button) :
  row_buttons acct r = Normal l ->
  l <> [] ->
  isOwner acct (owner r) = Normal true /\ status r = JStr "pending".
Proof.
  unfold row_buttons. destruct (isOwner acct (owner r)) as [mine|]; simpl;
    [|done].
  intros [= <-] Hl. destruct mine; simpl in Hl; [|done].
  destruct (status r) as [| | |s| |]; simpl in Hl; try done.
  destruct (String.eqb s "pending") eqn:E; [|done].
  apply String.eqb_eq in E. by subst s.
Qed.

(** C1, as the code has it.  [verifyRecord] and [rejectRecord] never
    compare the account with the owner of the record: whatever the
    account of the session and whatever the stored owner, a ready
    transition writes the new status and ends on its success message.
    The owner is consulted when the dashboard is rendered: a row gets
    its Verify and Reject buttons only if [isOwner] answers [true] for
    the row's owner (equality up to letter case), so no button is
    rendered on a row for an account that is not its owner. *)
Theorem owner_checked_only_when_rendering (recordId recordData : json)
  (w : World) (r : VoterRecord) :
  ready recordId recordData w ->
  (succeeded (snd (verifyRecord recordId w))
   /\ stored (chain (snd (verifyRecord recordId w))) (record_key recordId)
      = JSON_stringify (with_status recordData "verified"))
  /\ (succeeded (snd (rejectRecord recordId w))
      /\ stored (chain (snd (rejectRecord recordId w))) (record_key recordId)
         = JSON_stringify (with_status recordData "rejected"))
  /\ (isOwner (account (app w)) (owner r) <> Normal true ->
      forall l, row_buttons (account (app w)) r = Normal l -> l = []).
Proof.
  intros Hready. repeat split.
  - destruct (transition_goes_through "verified"
                "FHE verification completed successfully!"
                "Verification failed: " _ _ _ Hready) as [Htx _].
    unfold succeeded, verifyRecord. by rewrite Htx.
  - destruct (transition_goes_through "verified"
                "FHE verification completed successfully!"
                "Verification failed: " _ _ _ Hready) as [_ Hc].
    unfold verifyRecord. by rewrite Hc, stored_write_eq.
  - destruct (transition_goes_through "rejected"
                "FHE rejection completed successfully!"
                "Rejection failed: " _ _ _ Hready) as [Htx _].
    unfold succeeded, rejectRecord. by rewrite Htx.
  - destruct (transition_goes_through "rejected"
                "FHE rejection completed successfully!"
                "Rejection failed: " _ _ _ Hready) as [_ Hc].
    unfold rejectRecord. by rewrite Hc, stored_write_eq.
  - intros Hno l Hl. destruct l as [|b l]; [done|].
    destruct (row_buttons_guard _ _ _ Hl) as [Hmine _]; [done|].
    by destruct Hno.
Qed.

(** C2, as the code has it.  [verifyRecord] and [rejectRecord] never
    look at the stored status: on a record whose status is already
    ["verified"] or ["rejected"] a ready transition overwrites it with
    the new status and ends on its success message.  The status is
    consulted when the dashboard is rendered: a row gets its buttons
    only while its cached status is ["pending"]. *)
Theorem status_checked_only_when_rendering (recordId : json)
  (ps : list (string * json)) (old : string) (w : World) (r : VoterRecord) :
  ready recordId (JObj ps) w ->
  lookup_prop "status" ps = Some (JStr old) ->
  old = "verified" \/ old = "rejected" ->
  reads_back (with_status (JObj ps) "verified") ->
  reads_back (with_status (JObj ps) "rejected") ->
  (exists r0,
      decode_record recordId (stored (chain w) (record_key recordId))
      = Normal r0
      /\ status r0 = JStr old
      /\ succeeded (snd (verifyRecord recordId w))
      /\ decode_record recordId
           (stored (chain (snd (verifyRecord recordId w)))
                   (record_key recordId))
         = Normal (row_with_status (JStr "verified") r0)
      /\ succeeded (snd (rejectRecord recordId w))
      /\ decode_record recordId
           (stored (chain (snd (rejectRecord recordId w)))
                   (record_key recordId))
         = Normal (row_with_status (JStr "rejected") r0))
  /\ (status r <> JStr "pending" ->
      forall acct l, row_buttons acct r = Normal l -> l = []).
Proof.
  intros Hready Hold Hterm Hv Hr. split.
  - destruct (transition_only_status "verified"
                "FHE verification completed successfully!"
                "Verification failed: " recordId ps w) as [Sv (_ & rv & Dv & Dv')];
      [discriminate | exact Hready | exact Hv |].
    destruct (transition_only_status "rejected"
                "FHE rejection completed successfully!"
                "Rejection failed: " recordId ps w) as [Sr (_ & rr & Dr & Dr')];
      [discriminate | exact Hready | exact Hr |].
    exists rv. rewrite Dv in Dr. injection Dr as <-.
    repeat split; try done.
    destruct Hready as (_ & _ & _ & _ & _ & Hd).
    unfold decode_record in Dv. rewrite Hd in Dv. simpl in Dv.
    rewrite build_record_object in Dv. injection Dv as <-. simpl.
    rewrite Hold. by destruct Hterm; subst old.
  - intros Hno acct l Hl. destruct l as [|b l]; [done|].
    destruct (row_buttons_guard _ _ _ Hl) as [_ Hst]; [done|].
    by destruct Hno.
Qed.

End Transitions.

Lemma transition_changes_only_status_witness :
  let w := Scenario.alice_pending in
  (succeeded (snd (verifyRecord (JStr "a") w))
   /\ only_status_changed (JStr "a") "verified"
        (chain w) (chain (snd (verifyRecord (JStr "a") w))))
  /\ (succeeded (snd (rejectRecord (JStr "a") w))
      /\ only_status_changed (JStr "a") "rejected"
           (chain w) (chain (snd (rejectRecord (JStr "a") w)))).
Proof.
  apply (transition_changes_only_status (JStr "a")
           [("data", JStr "FHE-e30="); ("timestamp", JNum 100);
            ("owner", JStr "0xA11CE"); ("region", JStr "North");
            ("ageGroup", JStr "18-30"); ("status", JStr "pending")]).
  - repeat split; vm_compute; (reflexivity || discriminate).
  - split; vm_compute; (reflexivity || discriminate).
  - split; vm_compute; (reflexivity || discriminate).
Defined.

(** C1 fails on the code.  In [Scenario.bob_looks_at_alice] the session
    belongs to ["0xB0B"] and the stored record to ["0xA11CE"]; still
    [verifyRecord] ends on its success message and the stored status
    goes from ["pending"] to ["verified"]. *)
Lemma nonowner_transition_counterexample :
  let w := Scenario.bob_looks_at_alice in
  let w' := snd (verifyRecord (JStr "a") w) in
  decode_record (JStr "a") (stored (chain w) "record_a")
  = Normal (row_of Scenario.alice)
  /\ isOwner (account (app w)) (owner (row_of Scenario.alice)) = Normal false
  /\ transactionStatus (app w')
     = tx tx_success "FHE verification completed successfully!"
  /\ decode_record (JStr "a") (stored (chain w') "record_a")
     = Normal (row_of (set_status verified Scenario.alice)).
Proof. vm_compute. repeat split. Qed.

Lemma owner_checked_only_when_rendering_witness :
  let w := Scenario.bob_looks_at_alice in
  let r := row_of Scenario.alice in
  (succeeded (snd (verifyRecord (JStr "a") w))
   /\ stored (chain (snd (verifyRecord (JStr "a") w))) (record_key (JStr "a"))
      = JSON_stringify (with_status (encode Scenario.alice) "verified"))
  /\ (succeeded (snd (rejectRecord (JStr "a") w))
      /\ stored (chain (snd (rejectRecord (JStr "a") w))) (record_key (JStr "a"))
         = JSON_stringify (with_status (encode Scenario.alice) "rejected"))
  /\ (isOwner (account (app w)) (owner r) <> Normal true ->
      forall l, row_buttons (account (app w)) r = Normal l -> l = []).
Proof.
  apply (owner_checked_only_when_rendering (JStr "a")
           (encode Scenario.alice) Scenario.bob_looks_at_alice
           (row_of Scenario.alice)).
  repeat split; vm_compute; (reflexivity || discriminate).
Defined.

(** C2 fails on the code.  From [Scenario.alice_pending] the owner
    verifies her record and then rejects it: both calls end on their
    success message, and the stored status ends as ["rejected"]. *)
Lemma second_transition_counterexample :
  let w0 := Scenario.alice_pending in
  let w1 := snd (verifyRecord (JStr "a") w0) in
  let w2 := snd (rejectRecord (JStr "a") w1) in
  transactionStatus (app w1)
  = tx tx_success "FHE verification completed successfully!"
  /\ decode_record (JStr "a") (stored (chain w1) "record_a")
     = Normal (row_of (set_status verified Scenario.alice))
  /\ transactionStatus (app w2)
     = tx tx_success "FHE rejection completed successfully!"
  /\ decode_record (JStr "a") (stored (chain w2) "record_a")
     = Normal (row_of (set_status rejected Scenario.alice)).
Proof. vm_compute. repeat split. Qed.

Lemma status_checked_only_when_rendering_witness :
  let w := Scenario.alice_verified in
  let r := row_of (set_status verified Scenario.alice) in
  (exists r0,
      decode_record (JStr "a") (stored (chain w) (record_key (JStr "a")))
      = Normal r0
      /\ status r0 = JStr "verified"
      /\ succeeded (snd (verifyRecord (JStr "a") w))
      /\ decode_record (JStr "a")
           (stored (chain (snd (verifyRecord (JStr "a") w)))
                   (record_key (JStr "a")))
         = Normal (row_with_status (JStr "verified") r0)
      /\ succeeded (snd (rejectRecord (JStr "a") w))
      /\ decode_record (JStr "a")
           (stored (chain (snd (rejectRecord (JStr "a") w)))
                   (record_key (JStr "a")))
         = Normal (row_with_status (JStr "rejected") r0))
  /\ (status r <> JStr "pending" ->
      forall acct l, row_buttons acct r = Normal l -> l = []).
Proof.
  apply (status_checked_only_when_rendering (JStr "a")
           [("data", JStr "FHE-e30="); ("timestamp", JNum 100);
            ("owner", JStr "0xA11CE"); ("region", JStr "North");
            ("ageGroup", JStr "18-30"); ("status", JStr "verified")]
           "verified" Scenario.alice_verified).
  - repeat split; vm_compute; (reflexivity || discriminate).
  - reflexivity.
  - by left.
  - split; vm_compute; (reflexivity || discriminate).
  - split; vm_compute; (reflexivity || discriminate).
Defined.

(** ** Refresh *)

Section Refresh.
Context `{rt : JSRuntime}.

(** *** The sort *)

Lemma sort_insert_perm {A : Type} (cmp : A -> A -> completion (option Z))
  (x : A) (l l' : list A) :
  sort_insert cmp x l = Normal l' -> l' ≡ₚ x :: l.
Proof.
  revert l'. induction l as [|y l IH]; intros l'; simpl.
  - by intros [= <-].
  - destruct (cmp x y) as [d|e]; simpl; [|done].
    destruct (goes_after d); simpl.
    + destruct (sort_insert cmp x l) as [r'|e]; simpl; [|done].
      intros [= <-]. rewrite (IH r' eq_refl). apply perm_swap.
    + by intros [= <-].
Qed.

Lemma sort_perm {A : Type} (cmp : A -> A -> completion (option Z))
  (l l' : list A) :
  sort cmp l = Normal l' -> l' ≡ₚ l.
Proof.
  revert l'. induction l as [|x l IH]; intros l'; simpl.
  - by intros [= <-].
  - destruct (sort cmp l) as [sorted|e]; simpl; [|done].
    intros H. rewrite (sort_insert_perm _ _ _ _ H). by rewrite (IH sorted).
Qed.

(** The sort throws only what the comparator throws. *)
Lemma by_timestamp_desc_comparable (x y : VoterRecord) :
  comparable x -> comparable y ->
  exists d, by_timestamp_desc x y = Normal d.
Proof.
  intros [tx Hx] [ty Hy]. unfold by_timestamp_desc.
  rewrite Hy, Hx. simpl. by eexists.
Qed.

Lemma sort_insert_comparable (x : VoterRecord) (l : list VoterRecord) :
  comparable x -> Forall comparable l ->
  exists l', sort_insert by_timestamp_desc x l = Normal l'.
Proof.
  intros Hx. induction l as [|y l IH]; intros Hl; simpl; [by eexists|].
  apply Forall_cons in Hl as [Hy Hl].
  destruct (by_timestamp_desc_comparable x y Hx Hy) as [d ->]. simpl.
  destruct (goes_after d); simpl; [|by eexists].
  destruct (IH Hl) as [r' ->]. simpl. by eexists.
Qed.

Lemma sort_comparable (l : list VoterRecord) :
  Forall comparable l -> exists l', sort by_timestamp_desc l = Normal l'.
Proof.
  induction l as [|x l IH]; intros Hl; simpl; [by eexists|].
  apply Forall_cons in Hl as [Hx Hl].
  destruct (IH Hl) as [sorted Hs]. rewrite Hs. simpl.
  apply sort_insert_comparable; [done|].
  by rewrite (sort_perm _ _ _ Hs).
Qed.

Lemma sort_sortable (l : list VoterRecord) :
  sortable l -> exists l', sort by_timestamp_desc l = Normal l'.
Proof.
  intros [Hshort|Hall]; [|by apply sort_comparable].
  destruct l as [|x [|y l]]; simpl in *; [by eexists|by eexists|lia].
Qed.









(** *** What a refresh shows *)

Lemma printable_visited (items : list json) :
  printable items ->
  existsb unprintable items = false /\ visited items = items.
Proof.
  induction 1 as [|key items Hkey _ [IH1 IH2]]; simpl; [done|].
  by rewrite Hkey, IH1, IH2.
Qed.

Lemma refresh_outcome_loaded (w : World) (items : list json)
  (rows : list VoterRecord) :
  index_loaded w items ->
  printable items ->
  sort by_timestamp_desc (omap (fetch (chain w)) items) = Normal rows ->
  refresh_outcome w
  = (rows,
     [CallIsAvailable; CallGetData "record_keys"]
       ++ load_keys_events "Error parsing record keys:"
            (stored (chain w) "record_keys")
       ++ concat (map (fetch_events (chain w)) items)).
Proof.
  intros (Hr & Hp & Ha & Hf & Hi) Hpr Hs. unfold refresh_outcome.
  destruct (printable_visited _ Hpr) as [He Hv].
  rewrite Hr, Hp, Ha, Hf, Hi. cbv zeta. rewrite He, Hv, Hs.
  by rewrite <- app_assoc.
Qed.

Lemma loadRecords_records (w : World) (items : list json)
  (rows : list VoterRecord) :
  index_loaded w items ->
  printable items ->
  sort by_timestamp_desc (omap (fetch (chain w)) items) = Normal rows ->
  records (app (snd (loadRecords w))) = rows.
Proof.
  intros H Hpr Hs. rewrite loadRecords_run. simpl.
  by rewrite (refresh_outcome_loaded _ _ _ H Hpr Hs).
Qed.

(** A refresh that gets through its loop and its sort shows the rows
    the loop collected, in the order of the sort. *)
Lemma loadRecords_shown (w : World) (items : list json) :
  index_loaded w items ->
  printable items ->
  sortable (omap (fetch (chain w)) items) ->
  records (app (snd (loadRecords w))) ≡ₚ omap (fetch (chain w)) items.
Proof.
  intros H Hpr Hs. destruct (sort_sortable _ Hs) as [rows Hrows].
  rewrite (loadRecords_records _ _ _ H Hpr Hrows).
  by apply sort_perm in Hrows.
Qed.

Lemma fetch_Some (c : Contract) (key : json) (r : VoterRecord) :
  fetch c key = Some r <->
  read_faults c !! record_key key = None
  /\ stored c (record_key key) <> ""
  /\ decode_record key (stored c (record_key key)) = Normal r.
Proof.
  unfold fetch. destruct (read_faults c !! record_key key) as [e|].
  { split; [done|]. by intros [? _]. }
  destruct (nonempty (stored c (record_key key))) eqn:E.
  - assert (stored c (record_key key) <> "") as Hne.
    { intros H. rewrite H in E. done. }
    destruct (decode_record _ _) as [r'|e].
    + split; [by intros [= ->]|]. by intros (_ & _ & [= ->]).
    + split; [done|]. by intros (_ & _ & ?).
  - apply nonempty_false in E. split; [done|]. by intros (_ & ? & _).
Qed.







End Refresh.

(** The text of an index entry on the reference runtime: digits for a
    number below 10^21, the exponent form from there on, and no text
    for an object with an own [toString]. *)
Example text_of_index_entries :
  ToString (JNum 1700000000000) = Normal "1700000000000"
  /\ ToString (JNum (10 ^ 21)) = Normal "1e+21"
  /\ ToString (JNum (- (25 * 10 ^ 20))) = Normal "-2.5e+21"
  /\ ToString (JArr [JNum 1; JNull; JStr "a"]) = Normal "1,,a"
  /\ ToString (JObj [("id", JNum 1)]) = Normal "[object Object]"
  /\ ToString (JObj [("toString", JNum 5)])
     = Throw (engine_error NoPrimitiveValue)
  /\ ToString (JArr [JStr "a"; JObj [("toString", JNull)]])
     = Throw (engine_error NoPrimitiveValue).
Proof. vm_compute. repeat split. Qed.



(** The scenario of the specification: index [a, b], a valid record
    for [a] (timestamp 100), corrupt bytes for [b]; the refresh shows
    the one row of [a]. *)
Example refresh_one_valid_one_corrupt :
  loadRecords Scenario.one_valid_one_corrupt
  = (Normal tt,
     with_app (put_records [row_of Scenario.alice])
       (logs [CallIsAvailable; CallGetData "record_keys";
              CallGetData "record_a"; CallGetData "record_b";
              ConsoleError "Error parsing record data for b:"]
             Scenario.one_valid_one_corrupt))
  /\ omap (expected_row (chain Scenario.one_valid_one_corrupt))
          [JStr "a"; JStr "b"]
     = [row_of Scenario.alice].
Proof. vm_compute. split; reflexivity. Qed.

(** Bytes that parse, but not to an object, do decode: with the bytes
    [5] under the record key of [b], the loop adds a row for [b] whose
    fields are [undefined] and whose status is the default. *)
Example refresh_on_record_that_is_not_an_object :
  records (app (snd (loadRecords Scenario.record_is_a_number)))
  = [row_of Scenario.alice;
     {| id := JStr "b"; encryptedData := None; timestamp := None;
        owner := None; status := JStr "pending"; region := None;
        ageGroup := None |}].
Proof. vm_compute. reflexivity. Qed.



(** The scenario of the specification: the index lists the record with
    timestamp 100 before the one with timestamp 200; the refresh shows
    them in the order 200, 100. *)
Example refresh_two_records :
  records (app (snd (loadRecords Scenario.two_records)))
  = [row_of Scenario.bob; row_of Scenario.alice]
  /\ map seconds (records (app (snd (loadRecords Scenario.two_records))))
     = [200; 100].
Proof. vm_compute. split; reflexivity. Qed.



(** ** Registration, and the availability probe *)

Section Register.
Context `{rt : JSRuntime}.

Lemma loadRecords_trace (w : World) :
  trace (snd (loadRecords w)) = trace w ++ snd (refresh_outcome w).
Proof. by rewrite loadRecords_run. Qed.

Lemma loadRecords_chain (w : World) : chain (snd (loadRecords w)) = chain w.
Proof. by rewrite loadRecords_run. Qed.

Lemma events_of_app {A : Type} (m : M A) (w : World) (es : list event) :
  trace (snd (m w)) = trace w ++ es -> events_of m w = es.
Proof. intros H. unfold events_of. by rewrite H, drop_app_length. Qed.

(** The events of a transition: those of its attempt, then those of
    the closing refresh if the attempt went through. *)
Lemma transition_events (newStatus okMessage failPrefix : string)
  (recordId : json) (w : World) :
  provider (app w) = true ->
  exists more,
    events_of (transition newStatus okMessage failPrefix recordId) w
    = fst (transition_attempt newStatus recordId w) ++ more.
Proof.
  intros Hp.
  destruct (transition_attempt newStatus recordId w) as [es [e|new]] eqn:E.
  - exists []. apply events_of_app.
    rewrite transition_run, Hp, E. simpl. by rewrite app_nil_r.
  - eexists. apply events_of_app.
    rewrite transition_run, Hp, E. simpl.
    rewrite loadRecords_trace. simpl. by rewrite <- app_assoc.
Qed.

Lemma writes_of_app (l1 l2 : list event) :
  writes_of (l1 ++ l2) = writes_of l1 ++ writes_of l2.
Proof. apply omap_app. Qed.

Lemma writes_of_set (k v : string) (es : list event) :
  writes_of (CallSetData k v :: es) = (k, v) :: writes_of es.
Proof. reflexivity. Qed.

Lemma writes_of_get (k : string) (es : list event) :
  writes_of (CallGetData k :: es) = writes_of es.
Proof. reflexivity. Qed.

Lemma writes_of_load_keys_events (msg bytes : string) :
  writes_of (load_keys_events msg bytes) = [].
Proof.
  unfold load_keys_events. destruct (nonempty bytes); [|done].
  by destruct (JSON_parse bytes).
Qed.

Lemma writes_of_fetch_events (c : Contract) (keys : list json) :
  writes_of (concat (map (fetch_events c) keys)) = [].
Proof.
  induction keys as [|key keys IH]; simpl; [done|].
  rewrite writes_of_app, IH, app_nil_r. unfold fetch_events.
  destruct (read_faults c !! record_key key); [done|].
  destruct (nonempty _); [|done]. by destruct (decode_record _ _).
Qed.

(** A refresh writes nothing. *)
Lemma writes_of_refresh (w : World) : writes_of (snd (refresh_outcome w)) = [].
Proof.
  unfold refresh_outcome.
  destruct (reader w); [|done].
  destruct (probe_fault (chain w)); [done|].
  destruct (available (chain w)); [|done].
  destruct (read_faults (chain w) !! "record_keys"); [done|].
  destruct (iterate _) as [items|e]; cbv zeta;
    [destruct (existsb unprintable items); [|destruct (sort _ _)]|];
    cbn [fst snd];
    by rewrite !writes_of_app, writes_of_load_keys_events,
         ?writes_of_fetch_events.
Qed.

Lemma registerVoter_events (now_id now_ts : Z) (suffix : string) (w : World) :
  provider (app w) = true ->
  exists more,
    events_of (registerVoter now_id now_ts suffix) w
    = fst (fst (register_attempt now_id now_ts suffix w)) ++ more
    /\ writes_of more = [].
Proof.
  intros Hp.
  destruct (register_attempt now_id now_ts suffix w) as [[es ws] [e|]] eqn:E.
  - exists []. split; [|done]. apply events_of_app.
    rewrite registerVoter_run, Hp, E. simpl. by rewrite app_nil_r.
  - eexists. split.
    + apply events_of_app.
      rewrite registerVoter_run, Hp, E. simpl.
      rewrite loadRecords_trace. simpl. by rewrite <- app_assoc.
    + apply writes_of_refresh.
Qed.

Lemma registerVoter_chain (now_id now_ts : Z) (suffix : string) (w : World) :
  provider (app w) = true ->
  chain (snd (registerVoter now_id now_ts suffix w))
  = apply_writes (snd (fst (register_attempt now_id now_ts suffix w)))
                 (chain w).
Proof.
  intros Hp. rewrite registerVoter_run, Hp.
  destruct (register_attempt now_id now_ts suffix w) as [[es ws] [e|]]; simpl;
    [done|].
  by rewrite loadRecords_chain.
Qed.

(** C3, as the code has it.  Only [loadRecords] consults the probe.
    When the probe answers [false], [loadRecords] notes it on the
    console and returns normally: it makes no [getData] or [setData]
    call and leaves the rows on display as they were.  [registerVoter],
    [verifyRecord] and [rejectRecord] do not consult the probe before
    their own calls: with a wallet and a signer at hand, the first call
    of [registerVoter] is the [setData] of the new record, and the first
    call of [verifyRecord] and of [rejectRecord] is the [getData] of the
    record. *)
Theorem probe_stops_only_the_refresh (w : World) (recordId : json)
  (now_id now_ts : Z) (suffix : string) :
  available (chain w) = false ->
  probe_fault (chain w) = None ->
  reader w = true ->
  provider (app w) = true ->
  signer w = true ->
  loadRecords w
  = (Normal tt,
     with_app (refreshed (records (app w)))
       (logs [CallIsAvailable; ConsoleError "Contract is not available"] w))
  /\ (exists rest,
        events_of (registerVoter now_id now_ts suffix) w
        = CallSetData ("record_" +:+ new_recordId now_id suffix)
            (JSON_stringify (new_recordData (app w) now_ts)) :: rest)
  /\ (exists rest,
        events_of (verifyRecord recordId) w
        = CallGetData (record_key recordId) :: rest)
  /\ (exists rest,
        events_of (rejectRecord recordId) w
        = CallGetData (record_key recordId) :: rest).
Proof.
  intros Ha Hf Hr Hp Hs. split; [|split; [|split]].
  - rewrite loadRecords_run. unfold refresh_outcome.
    by rewrite Hr, Hf, Ha.
  - destruct (registerVoter_events now_id now_ts suffix w Hp)
      as (more & -> & _).
    unfold register_attempt. rewrite Hs.
    destruct (write_faults (chain w) !! _); [by eexists|].
    destruct (read_faults (chain w) !! _); [by eexists|].
    destruct (push _ _); [|by eexists].
    destruct (write_faults (chain w) !! _); by eexists.
  - destruct (transition_events "verified"
                "FHE verification completed successfully!"
                "Verification failed: " recordId w Hp) as (more & Hev).
    unfold verifyRecord. rewrite Hev. unfold transition_attempt.
    rewrite Hs.
    destruct (read_faults (chain w) !! _); [by eexists|].
    destruct (nonempty _); [|by eexists].
    destruct (JSON_parse _); [|by eexists].
    destruct (write_faults (chain w) !! _); by eexists.
  - destruct (transition_events "rejected"
                "FHE rejection completed successfully!"
                "Rejection failed: " recordId w Hp) as (more & Hev).
    unfold rejectRecord. rewrite Hev. unfold transition_attempt.
    rewrite Hs.
    destruct (read_faults (chain w) !! _); [by eexists|].
    destruct (nonempty _); [|by eexists].
    destruct (JSON_parse _); [|by eexists].
    destruct (write_faults (chain w) !! _); by eexists.
Qed.

(** *** The index invariant *)

Lemma dash_not_keys (a b : string) : a +:+ "-" +:+ b <> "keys".
Proof.
  destruct a as [|c1 [|c2 [|c3 [|c4 [|c5 a]]]]]; simpl; discriminate.
Qed.

Lemma new_record_key_ne (now_id : Z) (suffix : string) :
  new_record_key now_id suffix <> "record_keys".
Proof.
  unfold new_record_key, new_recordId. simpl. intros [= H].
  by apply dash_not_keys in H.
Qed.


Lemma index_ids_array (c : Contract) (l : list json) :
  load_keys (stored c "record_keys") = JArr l -> index_ids c = l.
Proof. intros H. unfold index_ids. by rewrite H. Qed.

Lemma index_ids_write_index (l : list json) (c : Contract) :
  reads_back (JArr l) ->
  index_ids (write "record_keys" (JSON_stringify (JArr l)) c) = l.
Proof.
  intros [Hne Hrb]. apply index_ids_array.
  rewrite stored_write_eq. unfold load_keys.
  by rewrite (nonempty_true _ Hne), Hrb.
Qed.

Lemma push_array (keys x keys' : json) :
  push keys x = Normal keys' ->
  exists l, keys = JArr l /\ keys' = JArr (l ++ [x]).
Proof.
  destruct keys; simpl; try discriminate. intros [= <-]. by eexists.
Qed.




Lemma index_loaded_ids (w : World) (items : list json) :
  index_loaded w items -> items = index_ids (chain w).
Proof. intros (_ & _ & _ & _ & Hi). unfold index_ids. by rewrite Hi. Qed.

Lemma shown_ids (w : World) (items : list json) (r : VoterRecord) :
  index_loaded w items ->
  printable items ->
  sortable (omap (fetch (chain w)) items) ->
  r ∈ records (app (snd (loadRecords w))) -> id r ∈ items.
Proof.
  intros H Hpr Hs Hr. rewrite (loadRecords_shown _ _ H Hpr Hs) in Hr.
  apply list_elem_of_omap in Hr as (key & Hk & Hfetch).
  apply fetch_Some in Hfetch as (_ & _ & Hd).
  by rewrite (decode_record_id _ _ _ Hd).
Qed.

(** C6.  When the stored index bytes are non-empty but parsing them
    throws, a registration that goes through writes back an index that
    holds the new identifier alone.  The identifiers registered before
    are gone from the index: a later refresh of that store visits only
    the new identifier and shows no row of another, although every
    other key of the store, the earlier records included, still holds
    its bytes. *)
Theorem register_over_unparsable_index (w : World) (now_id now_ts : Z)
  (suffix : string) (e : exn) :
  provider (app w) = true ->
  signer w = true ->
  no_faults (chain w) ->
  stored (chain w) "record_keys" <> "" ->
  JSON_parse (stored (chain w) "record_keys") = Throw e ->
  reads_back (JArr [JStr (new_recordId now_id suffix)]) ->
  let w' := snd (registerVoter now_id now_ts suffix w) in
  stored (chain w') "record_keys"
  = JSON_stringify (JArr [JStr (new_recordId now_id suffix)])
  /\ index_ids (chain w') = [JStr (new_recordId now_id suffix)]
  /\ (forall k,
        k <> "record_keys" -> k <> new_record_key now_id suffix ->
        stored (chain w') k = stored (chain w) k)
  /\ (forall w2 items r,
        chain w2 = chain w' ->
        index_loaded w2 items ->
        r ∈ records (app (snd (loadRecords w2))) ->
        id r = JStr (new_recordId now_id suffix)).
Proof.
  intros Hp Hs (_ & Hrf & Hwf) Hne He Hrb. cbv zeta.
  pose proof (new_record_key_ne now_id suffix) as Hkey.
  assert (chain (snd (registerVoter now_id now_ts suffix w))
          = write "record_keys"
              (JSON_stringify (JArr [JStr (new_recordId now_id suffix)]))
              (write (new_record_key now_id suffix) (new_payload w now_ts)
                     (chain w))) as Hc.
  { rewrite (registerVoter_chain _ _ _ _ Hp). unfold register_attempt.
    fold (new_record_key now_id suffix). fold (new_payload w now_ts).
    rewrite Hs, Hwf, Hrf, !lookup_empty.
    rewrite stored_write_ne by congruence.
    unfold load_keys. by rewrite (nonempty_true _ Hne), He. }
  rewrite Hc.
  assert (index_ids
            (write "record_keys"
               (JSON_stringify (JArr [JStr (new_recordId now_id suffix)]))
               (write (new_record_key now_id suffix) (new_payload w now_ts)
                      (chain w)))
          = [JStr (new_recordId now_id suffix)]) as Hids.
  { by apply index_ids_write_index. }
  split; [by rewrite stored_write_eq|].
  split; [exact Hids|]. split.
  - intros k Hk1 Hk2. by rewrite !stored_write_ne.
  - intros w2 items r Hw2 Hloaded Hr.
    pose proof (index_loaded_ids _ _ Hloaded) as Hitems.
    rewrite Hw2, Hids in Hitems. subst items.
    apply (shown_ids w2 [JStr (new_recordId now_id suffix)]) in Hr.
    + by apply list_elem_of_singleton in Hr.
    + exact Hloaded.
    + by repeat constructor.
    + left. cbn. destruct (fetch _ _); simpl; lia.
Qed.

End Register.

(** C3 fails on the code.  In [Scenario.unavailable] the probe answers
    [false].  [loadRecords] returns normally, no error reaches its
    caller.  [registerVoter] and [verifyRecord] never ask the probe
    before their own calls: both go through their reads and writes and
    end on their success message; the probe is called only by the
    refresh that closes them. *)
Lemma unavailable_store_counterexample :
  let w := Scenario.unavailable in
  let register := registerVoter 1700000000000 1700000000000 "k3x9q2a" in
  available (chain w) = false
  /\ fst (loadRecords w) = Normal tt
  /\ events_of register w
     = [CallSetData "record_1700000000000-k3x9q2a"
          (JSON_stringify (new_recordData (app w) 1700000000000));
        CallGetData "record_keys";
        CallSetData "record_keys"
          (Scenario.index_of ["a"; "b"; "1700000000000-k3x9q2a"]);
        CallIsAvailable;
        ConsoleError "Contract is not available"]
  /\ transactionStatus (app (snd (register w)))
     = tx tx_success "Voter registration submitted securely!"
  /\ events_of (verifyRecord (JStr "a")) w
     = [CallGetData "record_a";
        CallSetData "record_a"
          (JSON_stringify (encode (set_status verified Scenario.alice)));
        CallIsAvailable;
        ConsoleError "Contract is not available"]
  /\ transactionStatus (app (snd (verifyRecord (JStr "a") w)))
     = tx tx_success "FHE verification completed successfully!".
Proof. vm_compute. repeat split. Qed.

Lemma probe_stops_only_the_refresh_witness :
  let w := Scenario.unavailable in
  loadRecords w
  = (Normal tt,
     with_app (refreshed (records (app w)))
       (logs [CallIsAvailable; ConsoleError "Contract is not available"] w))
  /\ (exists rest,
        events_of (registerVoter 1700000000000 1700000000000 "k3x9q2a") w
        = CallSetData ("record_" +:+ new_recordId 1700000000000 "k3x9q2a")
            (JSON_stringify (new_recordData (app w) 1700000000000)) :: rest)
  /\ (exists rest,
        events_of (verifyRecord (JStr "a")) w
        = CallGetData (record_key (JStr "a")) :: rest)
  /\ (exists rest,
        events_of (rejectRecord (JStr "a")) w
        = CallGetData (record_key (JStr "a")) :: rest).
Proof.
  apply (probe_stops_only_the_refresh Scenario.unavailable (JStr "a")
           1700000000000 1700000000000 "k3x9q2a"); reflexivity.
Defined.


(** The write sequence of that registration, spelled out. *)
Example register_writes_of_alice :
  let w := Scenario.alice_pending in
  let register := registerVoter 1700000000000 1700000000000 "k3x9q2a" in
  writes_of (events_of register w)
  = [("record_1700000000000-k3x9q2a",
      JSON_stringify (new_recordData (app w) 1700000000000));
     ("record_keys", Scenario.index_of ["a"; "1700000000000-k3x9q2a"])]
  /\ index_ids (chain (snd (register w)))
     = [JStr "a"; JStr "1700000000000-k3x9q2a"].
Proof. vm_compute. split; reflexivity. Qed.

Lemma register_over_unparsable_index_witness :
  let w := Scenario.corrupt_index in
  let w' := snd (registerVoter 1700000000000 1700000000000 "k3x9q2a" w) in
  stored (chain w') "record_keys"
  = JSON_stringify (JArr [JStr (new_recordId 1700000000000 "k3x9q2a")])
  /\ index_ids (chain w') = [JStr (new_recordId 1700000000000 "k3x9q2a")]
  /\ (forall k,
        k <> "record_keys" -> k <> new_record_key 1700000000000 "k3x9q2a" ->
        stored (chain w') k = stored (chain w) k)
  /\ (forall w2 items r,
        chain w2 = chain w' ->
        index_loaded w2 items ->
        r ∈ records (app (snd (loadRecords w2))) ->
        id r = JStr (new_recordId 1700000000000 "k3x9q2a")).
Proof.
  apply (register_over_unparsable_index Scenario.corrupt_index
           1700000000000 1700000000000 "k3x9q2a"
           (JsError "Unexpected token in JSON")).
  - reflexivity.
  - reflexivity.
  - repeat split.
  - vm_compute. discriminate.
  - vm_compute. reflexivity.
  - split; vm_compute; (reflexivity || discriminate).
Defined.

(** After that registration the record of [alice] is still stored, and
    the refresh that closes the registration shows the new row only. *)
Example rows_after_registering_over_bad_index :
  let w' :=
    snd (registerVoter 1700000000000 1700000000000 "k3x9q2a"
           Scenario.corrupt_index) in
  stored (chain w') "record_a" = JSON_stringify (encode Scenario.alice)
  /\ map id (records (app w')) = [JStr "1700000000000-k3x9q2a"].
Proof. vm_compute. split; reflexivity. Qed.

(** ** The reference runtime reads back what it writes

    The hypotheses [reads_back] of the statements above hold of every
    value on the reference runtime: its parser inverts its printer. *)

Module RefFacts.
Import Ref.

Lemma append_cons (c : ascii) (a b : string) :
  String c a +:+ b = String c (a +:+ b).
Proof. reflexivity. Qed.

Lemma append_nil (b : string) : "" +:+ b = b.
Proof. reflexivity. Qed.

Lemma append_assoc_r (a b c : string) : (a +:+ b) +:+ c = a +:+ b +:+ c.
Proof.
  induction a as [|x a IH]; [done|].
  by rewrite !append_cons, IH.
Qed.

Lemma length_append_sum (a b : string) :
  String.length (a +:+ b) = (String.length a + String.length b)%nat.
Proof.
  induction a as [|x a IH]; [done|].
  rewrite append_cons. simpl. by rewrite IH.
Qed.

Lemma strip_prefix_app (word rest : string) :
  strip_prefix word (word +:+ rest) = Some rest.
Proof.
  induction word as [|c word IH]; [done|].
  rewrite append_cons. simpl. by rewrite Ascii.eqb_refl.
Qed.

Lemma read_uint_string_of_uint (d : Decimal.uint) (rest : string) :
  ends_number rest ->
  read_uint (NilEmpty.string_of_uint d +:+ rest) = (d, rest).
Proof.
  intros Hrest.
  induction d; simpl NilEmpty.string_of_uint; rewrite ?append_cons;
    try (simpl; by rewrite IHd).
  rewrite append_nil. destruct rest as [|c rest]; [done|]. simpl.
  destruct Hrest as [Hd _]. unfold is_digit in Hd.
  by destruct (digit_of c).
Qed.

Lemma to_uint_well_formed (p : positive) :
  well_formed_digits (Pos.to_uint p) = true.
Proof.
  pose proof (DecimalPos.Unsigned.to_of (Pos.to_uint p)) as H.
  rewrite DecimalPos.Unsigned.of_to in H. simpl in H.
  pose proof (DecimalPos.Unsigned.to_uint_nonnil p) as Hn.
  destruct (Pos.to_uint p) as [|d| | | | | | | | |]; try done.
  unfold Decimal.unorm in H. simpl in H.
  destruct (Decimal.nzhead d) eqn:E; try done.
  - injection H as H. by subst d.
  - exfalso. by eapply nzhead_nonzero.
Qed.

Lemma string_of_uint_head (d : Decimal.uint) :
  d <> Decimal.Nil ->
  exists c s,
    NilEmpty.string_of_uint d = String c s
    /\ Ascii.eqb c "-" = false /\ is_digit c = true.
Proof.
  destruct d; [done|..]; intros _; by eexists _, _.
Qed.

Lemma parse_digits (d : Decimal.uint) (rest : string) :
  d <> Decimal.Nil ->
  well_formed_digits d = true ->
  ends_number rest ->
  parse_number (NilEmpty.string_of_uint d +:+ rest)
  = Some (JNum (Z.of_int (Decimal.Pos d)), rest)
  /\ parse_number (String "-" (NilEmpty.string_of_uint d +:+ rest))
     = Some (JNum (Z.of_int (Decimal.Neg d)), rest).
Proof.
  intros Hd Hwf Hrest.
  assert (starts_fraction rest = false) as Hfr.
  { destruct rest; [done|]. apply Hrest. }
  destruct (string_of_uint_head d Hd) as (c & s & Hs & Hc & _).
  unfold parse_number. split.
  - rewrite Hs, append_cons, Hc, <- append_cons, <- Hs.
    by rewrite read_uint_string_of_uint, Hwf, Hfr.
  - simpl. by rewrite read_uint_string_of_uint, Hwf, Hfr.
Qed.

Lemma Z_to_string_digits (n : Z) :
  exists d,
    d <> Decimal.Nil /\ well_formed_digits d = true
    /\ ((Z_to_string n = NilEmpty.string_of_uint d
         /\ Z.to_int n = Decimal.Pos d)
        \/ (Z_to_string n = String "-" (NilEmpty.string_of_uint d)
            /\ Z.to_int n = Decimal.Neg d)).
Proof.
  unfold Z_to_string. destruct n as [|p|p]; simpl Z.to_int.
  - exists (Decimal.D0 Decimal.Nil). split; [done|]. split; [done|]. by left.
  - exists (Pos.to_uint p).
    pose proof (DecimalPos.Unsigned.to_uint_nonnil p) as Hn.
    split; [done|]. split; [apply to_uint_well_formed|]. left.
    split; [|done]. simpl. by destruct (Pos.to_uint p).
  - exists (Pos.to_uint p).
    pose proof (DecimalPos.Unsigned.to_uint_nonnil p) as Hn.
    split; [done|]. split; [apply to_uint_well_formed|]. right.
    split; [|done]. simpl. by destruct (Pos.to_uint p).
Qed.

Lemma parse_number_Z (n : Z) (rest : string) :
  ends_number rest ->
  parse_number (Z_to_string n +:+ rest) = Some (JNum n, rest).
Proof.
  intros Hrest.
  destruct (Z_to_string_digits n) as (d & Hd & Hwf & [[Hs Hi]|[Hs Hi]]);
    rewrite Hs, <- (DecimalZ.of_to n), Hi;
    by apply parse_digits.
Qed.

Lemma parse_chars_escape_char (c : ascii) (r : string) :
  parse_chars (escape_char c +:+ r)
  = match parse_chars r with
    | Some (str, r') => Some (String c str, r')
    | None => None
    end.
Proof.
  destruct c as [[] [] [] [] [] [] [] []]; reflexivity.
Qed.

Lemma parse_chars_escape (s rest : string) :
  parse_chars (escape s +:+ String dquote rest) = Some (s, rest).
Proof.
  induction s as [|c s IH].
  - reflexivity.
  - simpl escape. by rewrite append_assoc_r, parse_chars_escape_char, IH.
Qed.

Lemma parse_chars_quote (s rest : string) :
  exists body,
    quote s +:+ rest = String dquote body
    /\ parse_chars body = Some (s, rest).
Proof.
  exists (escape s +:+ String dquote rest). split.
  - unfold quote. by rewrite append_cons, append_assoc_r.
  - apply parse_chars_escape.
Qed.

Lemma value_start_facts (c : ascii) :
  value_start c = true ->
  is_ws c = false /\ Ascii.eqb c "]" = false /\ Ascii.eqb c "}" = false
  /\ Ascii.eqb c "," = false.
Proof.
  destruct c as [[] [] [] [] [] [] [] []]; intros H;
    try discriminate H; done.
Qed.

Lemma skip_ws_start (c : ascii) (s : string) :
  is_ws c = false -> skip_ws (String c s) = String c s.
Proof. intros H. simpl. by rewrite H. Qed.

Lemma stringify_head (v : json) :
  exists c s, stringify v = String c s /\ value_start c = true.
Proof.
  destruct v as [|[]|n|s|l|ps]; try by eexists _, _.
  simpl. destruct (Z_to_string_digits n) as (d & Hd & _ & [[Hs _]|[Hs _]]).
  - destruct (string_of_uint_head d Hd) as (c & s & Hcs & _ & Hdig).
    exists c, s. rewrite Hs, Hcs. split; [done|].
    unfold value_start. by rewrite Hdig.
  - by eexists _, _.
Qed.

(** A numeral is handed to [parse_number]. *)
Lemma parse_value_number (fuel : nat) (c : ascii) (s : string) :
  is_digit c = true \/ c = "-"%char ->
  parse_value (S fuel) (String c s) = parse_number (String c s).
Proof.
  destruct c as [[] [] [] [] [] [] [] []]; intros [H| H];
    try discriminate H; reflexivity.
Qed.

Lemma parse_items_back (l : list json) (fuel : nat) (rest : string) :
  Forall parses_back l ->
  l <> [] ->
  (chain_need (map need l) <= fuel)%nat ->
  parse_items fuel (join "," (map stringify l) +:+ "]" +:+ rest)
  = Some (l, rest).
Proof.
  intros Hl. revert fuel. induction Hl as [|v l Hv Hl IH]; intros fuel Hne Hfuel;
    [done|].
  simpl in Hfuel. destruct fuel as [|fuel]; [lia|].
  destruct l as [|v2 l].
  - simpl join. simpl parse_items.
    rewrite Hv; [|simpl in *; lia|done]. reflexivity.
  - change (join "," (map stringify (v :: v2 :: l)))
      with (stringify v +:+ "," +:+ join "," (map stringify (v2 :: l))).
    rewrite !append_assoc_r. simpl parse_items.
    rewrite Hv; [|simpl in *; lia|done].
    rewrite !append_cons, append_nil. simpl skip_ws. cbn [Ascii.eqb Bool.eqb].
    rewrite IH; [done|done|simpl in *; lia].
Qed.

Lemma parse_members_back (ps : list (string * json)) (fuel : nat)
  (rest : string) :
  Forall (fun p => parses_back (snd p)) ps ->
  ps <> [] ->
  (chain_need (map (fun p => need (snd p)) ps) <= fuel)%nat ->
  parse_members fuel (join "," (map member_text ps) +:+ "}" +:+ rest)
  = Some (ps, rest).
Proof.
  intros Hps. revert fuel.
  induction Hps as [|[k v] ps Hv Hps IH]; intros fuel Hne Hfuel; [done|].
  simpl in Hfuel, Hv. destruct fuel as [|fuel]; [lia|].
  destruct ps as [|p2 ps].
  - simpl join. unfold member_text at 1. simpl fst. simpl snd.
    rewrite !append_assoc_r.
    destruct (parse_chars_quote k
                (":" +:+ stringify v +:+ "}" +:+ rest)) as (body & -> & Hb).
    simpl parse_members. rewrite Hb.
    rewrite ?append_cons, ?append_nil. simpl skip_ws. simpl expect.
    cbv beta iota.
    rewrite Hv; [|simpl in *; lia|done]. reflexivity.
  - change (join "," (map member_text ((k, v) :: p2 :: ps)))
      with (member_text (k, v) +:+ "," +:+ join "," (map member_text (p2 :: ps))).
    unfold member_text at 1. simpl fst. simpl snd.
    rewrite !append_assoc_r.
    destruct (parse_chars_quote k
                (":" +:+ stringify v +:+ "," +:+
                   join "," (map member_text (p2 :: ps)) +:+ "}" +:+ rest))
      as (body & -> & Hb).
    simpl parse_members. rewrite Hb.
    rewrite ?append_cons, ?append_nil. simpl skip_ws. simpl expect.
    cbv beta iota.
    rewrite Hv; [|simpl in *; lia|done].
    simpl skip_ws. cbn [Ascii.eqb Bool.eqb].
    rewrite IH; [done|done|simpl in *; lia].
Qed.

Lemma Z_to_string_head (n : Z) :
  exists c s, Z_to_string n = String c s /\ (is_digit c = true \/ c = "-"%char).
Proof.
  destruct (Z_to_string_digits n) as (d & Hd & _ & [[Hs _]|[Hs _]]).
  - destruct (string_of_uint_head d Hd) as (c & s & Hcs & _ & Hdig).
    exists c, s. rewrite Hs, Hcs. by split; [|left].
  - eexists _, _. split; [exact Hs|by right].
Qed.

Lemma parse_value_array (fuel : nat) (c : ascii) (r : string) :
  is_ws c = false -> Ascii.eqb c "]" = false ->
  parse_value (S fuel) (String "[" (String c r))
  = match parse_items fuel (String c r) with
    | Some (l, r') => Some (JArr l, r')
    | None => None
    end.
Proof. intros Hws Hb. simpl. by rewrite Hws, Hb. Qed.

Lemma parse_value_object (fuel : nat) (r : string) :
  parse_value (S fuel) (String "{" (String dquote r))
  = match parse_members fuel (String dquote r) with
    | Some (ps, r') => Some (JObj ps, r')
    | None => None
    end.
Proof. reflexivity. Qed.

Theorem stringify_parses_back (v : json) : parses_back v.
Proof.
  induction v as [|b|n|s|l IH|ps IH] using json_nested_ind;
    intros fuel rest Hfuel Hrest;
    (destruct fuel as [|fuel]; [simpl in Hfuel; lia|]).
  - reflexivity.
  - by destruct b.
  - simpl stringify.
    destruct (Z_to_string_head n) as (c & s & Hcs & Hc).
    rewrite <- (parse_number_Z n rest Hrest).
    rewrite Hcs, append_cons. by apply parse_value_number.
  - simpl stringify.
    destruct (parse_chars_quote s rest) as (body & -> & Hb).
    simpl. by rewrite Hb.
  - simpl stringify. rewrite !append_assoc_r, append_cons, append_nil.
    destruct l as [|v l]; [reflexivity|].
    assert (exists c r, join "," (map stringify (v :: l)) +:+ "]" +:+ rest
                        = String c r /\ value_start c = true)
      as (c & r & Hcr & Hc).
    { destruct (stringify_head v) as (c & s & Hs & Hc).
      exists c. destruct l as [|v2 l].
      - simpl join. rewrite Hs, append_cons. by eexists.
      - change (join "," (map stringify (v :: v2 :: l)))
          with (stringify v +:+ "," +:+ join "," (map stringify (v2 :: l))).
        rewrite Hs, !append_cons. by eexists. }
    destruct (value_start_facts c Hc) as (Hws & Hb1 & _ & _).
    rewrite Hcr, (parse_value_array _ _ _ Hws Hb1), <- Hcr.
    rewrite parse_items_back; [done|done|done|].
    change (need (JArr (v :: l)))
      with (S (chain_need (map need (v :: l)))) in Hfuel. lia.
  - simpl stringify. rewrite !append_assoc_r, append_cons, append_nil.
    destruct ps as [|[k v] ps]; [reflexivity|].
    change (map (fun p => quote (fst p) +:+ ":" +:+ stringify (snd p)))
      with (map member_text).
    assert (exists r, join "," (map member_text ((k, v) :: ps)) +:+ "}" +:+ rest
                      = String dquote r) as (r & Hr).
    { destruct ps as [|p2 ps].
      - simpl join. unfold member_text, quote. simpl fst.
        rewrite !append_cons. by eexists.
      - change (join "," (map member_text ((k, v) :: p2 :: ps)))
          with (member_text (k, v) +:+ "," +:+
                  join "," (map member_text (p2 :: ps))).
        unfold member_text at 1. unfold quote. simpl fst.
        rewrite !append_cons. by eexists. }
    rewrite Hr, parse_value_object, <- Hr.
    rewrite parse_members_back; [done|done|done|].
    change (need (JObj ((k, v) :: ps)))
      with (S (chain_need (map (fun p => need (snd p)) ((k, v) :: ps))))
      in Hfuel. lia.
Qed.

Lemma chain_need_le {A : Type} (f : A -> nat) (g : A -> string) (xs : list A) :
  Forall (fun x => (f x <= String.length (g x))%nat) xs ->
  (chain_need (map f xs) <= S (String.length (join "," (map g xs))))%nat.
Proof.
  induction 1 as [|x xs Hx Hxs IH]; [simpl; lia|].
  destruct xs as [|y xs].
  - simpl. lia.
  - change (join "," (map g (x :: y :: xs)))
      with (g x +:+ "," +:+ join "," (map g (y :: xs))).
    change (chain_need (map f (x :: y :: xs)))
      with (S (Nat.max (f x) (chain_need (map f (y :: xs))))).
    rewrite !length_append_sum. change (String.length ",") with 1%nat. lia.
Qed.

Lemma need_le_length (v : json) : (need v <= String.length (stringify v))%nat.
Proof.
  induction v as [|b|n|s|l IH|ps IH] using json_nested_ind.
  - simpl. lia.
  - destruct b; simpl; lia.
  - destruct (stringify_head (JNum n)) as (c & s & -> & _). simpl. lia.
  - simpl. lia.
  - change (need (JArr l)) with (S (chain_need (map need l))).
    change (stringify (JArr l))
      with ("[" +:+ join "," (map stringify l) +:+ "]").
    rewrite !length_append_sum.
    change (String.length "[") with 1%nat.
    change (String.length "]") with 1%nat.
    pose proof (chain_need_le need stringify l IH). lia.
  - change (need (JObj ps))
      with (S (chain_need (map (fun p => need (snd p)) ps))).
    change (stringify (JObj ps))
      with ("{" +:+ join "," (map member_text ps) +:+ "}").
    rewrite !length_append_sum.
    change (String.length "{") with 1%nat.
    change (String.length "}") with 1%nat.
    assert (Forall (fun p => (need (snd p)
                              <= String.length (member_text p))%nat) ps) as H.
    { eapply Forall_impl; [exact IH|]. intros [k v] Hv.
      unfold member_text. rewrite !length_append_sum. simpl in *. lia. }
    pose proof (chain_need_le _ member_text ps H). lia.
Qed.

Lemma append_empty_r (s : string) : s +:+ "" = s.
Proof.
  induction s as [|c s IH]; [done|]. by rewrite append_cons, IH.
Qed.

(** The reference runtime reads back every value it writes. *)
Theorem parse_stringify (v : json) : parse (stringify v) = Normal v.
Proof.
  unfold parse.
  pose proof (stringify_parses_back v (S (String.length (stringify v))) "")
    as H.
  rewrite append_empty_r in H. rewrite H; [done| |done].
  pose proof (need_le_length v). lia.
Qed.

Theorem stringify_nonempty (v : json) : stringify v <> "".
Proof. by destruct (stringify_head v) as (c & s & -> & _). Qed.

Theorem reference_reads_back (v : json) : reads_back v.
Proof. split; [apply stringify_nonempty|apply parse_stringify]. Qed.

End RefFacts.

(** ** The record codec, through the operations *)

(** C9.  Decoding the bytes written for a record that matches the
    interface gives the record back, field by field: identifier,
    encrypted data, timestamp, owner, region, age group and status.
    The bytes are those of the code.  For the record a registration
    builds, they are what [registerVoter] leaves under the record key,
    and [decode_record], the parse and field mapping of the refresh
    loop, reads that record from the store, the identifier travelling
    in the record key.  For a stored record that is verified or
    rejected, they are what [verifyRecord] and [rejectRecord] leave,
    and the loop reads the record with its new status.  This holds on
    every engine whose [JSON.parse] reads back what its
    [JSON.stringify] wrote for the record, and without that proviso on
    the reference runtime, whose parser inverts its printer. *)
Theorem decode_encode_roundtrip :
  (forall (rt : JSRuntime) (v : Voter),
      reads_back (encode v) ->
      decode_record (JStr (v_id v)) (JSON_stringify (encode v))
      = Normal (row_of v)
      /\ (forall w now_id now_ts suffix,
            provider (app w) = true ->
            signer w = true ->
            write_faults (chain w) !! new_record_key now_id suffix = None ->
            v = registered (app w) now_id now_ts suffix ->
            let w' := snd (registerVoter now_id now_ts suffix w) in
            stored (chain w') (record_key (JStr (v_id v)))
            = JSON_stringify (encode v)
            /\ decode_record (JStr (v_id v))
                 (stored (chain w') (record_key (JStr (v_id v))))
               = Normal (row_of v))
      /\ (forall w,
            ready (JStr (v_id v)) (encode v) w ->
            reads_back (encode (set_status verified v)) ->
            reads_back (encode (set_status rejected v)) ->
            decode_record (JStr (v_id v))
              (stored (chain (snd (verifyRecord (JStr (v_id v)) w)))
                      (record_key (JStr (v_id v))))
            = Normal (row_of (set_status verified v))
            /\ decode_record (JStr (v_id v))
                 (stored (chain (snd (rejectRecord (JStr (v_id v)) w)))
                         (record_key (JStr (v_id v))))
               = Normal (row_of (set_status rejected v))))
  /\ (forall v : Voter,
        @decode_record Ref.runtime (JStr (v_id v)) (Ref.stringify (encode v))
        = Normal (row_of v)).
Proof.
  assert (forall (rt : JSRuntime) (v : Voter),
             reads_back (encode v) ->
             decode_record (JStr (v_id v)) (JSON_stringify (encode v))
             = Normal (row_of v)) as Hround.
  { intros rt v [_ Hrb]. unfold decode_record. rewrite Hrb. simpl.
    unfold encode. rewrite build_record_object. unfold row_of.
    by destruct (v_status v). }
  split.
  - intros rt v Hrb. split; [by apply Hround|]. split.
    + intros w now_id now_ts suffix Hp Hs Hw Hv. cbv zeta.
      pose proof (new_record_key_ne now_id suffix) as Hkey.
      assert (record_key (JStr (v_id v)) = new_record_key now_id suffix)
        as Hk by (by rewrite Hv).
      assert (new_payload w now_ts = JSON_stringify (encode v)) as Hpay
        by (by rewrite Hv).
      assert (stored (chain (snd (registerVoter now_id now_ts suffix w)))
                     (record_key (JStr (v_id v)))
              = JSON_stringify (encode v)) as Hstored.
      { rewrite Hk, <- Hpay, (registerVoter_chain _ _ _ _ Hp).
        unfold register_attempt.
        fold (new_record_key now_id suffix). fold (new_payload w now_ts).
        rewrite Hs, Hw.
        destruct (read_faults (chain w) !! "record_keys");
          [apply stored_write_eq|].
        cbv zeta. destruct (push _ _); [|apply stored_write_eq].
        destruct (write_faults (chain w) !! "record_keys");
          cbn [fst snd apply_writes foldl];
          rewrite ?stored_write_ne by done; apply stored_write_eq. }
      split; [exact Hstored|]. rewrite Hstored. by apply Hround.
    + intros w Hready Hv Hr. unfold verifyRecord, rejectRecord.
      destruct (transition_goes_through "verified"
                  "FHE verification completed successfully!"
                  "Verification failed: " _ _ _ Hready) as [_ ->].
      destruct (transition_goes_through "rejected"
                  "FHE rejection completed successfully!"
                  "Rejection failed: " _ _ _ Hready) as [_ ->].
      rewrite !stored_write_eq.
      change (with_status (encode v) "verified")
        with (encode (set_status verified v)).
      change (with_status (encode v) "rejected")
        with (encode (set_status rejected v)).
      split; [exact (Hround rt _ Hv)|exact (Hround rt _ Hr)].
  - intros v. apply (Hround Ref.runtime).
    apply RefFacts.reference_reads_back.
Qed.

Lemma decode_encode_roundtrip_witness :
  let w := Scenario.fresh in
  let register := registerVoter 1700000000000 1700000000000 "k3x9q2a" in
  let v := registered (app w) 1700000000000 1700000000000 "k3x9q2a" in
  stored (chain (snd (register w))) (record_key (JStr (v_id v)))
  = JSON_stringify (encode v)
  /\ decode_record (JStr (v_id v))
       (stored (chain (snd (register w))) (record_key (JStr (v_id v))))
     = Normal (row_of v).
Proof.
  apply (proj1 (proj2 (proj1 decode_encode_roundtrip Ref.runtime
           (registered (app Scenario.fresh)
                       1700000000000 1700000000000 "k3x9q2a")
           (RefFacts.reference_reads_back _)))
           Scenario.fresh 1700000000000 1700000000000 "k3x9q2a");
    reflexivity.
Defined.

(** The record a registration stores in the empty store, read back. *)
Example registered_record_is_read_back :
  let w := Scenario.fresh in
  let w' := snd (registerVoter 1700000000000 1700000000000 "k3x9q2a" w) in
  records (app w')
  = [row_of (registered (app w) 1700000000000 1700000000000 "k3x9q2a")]
  /\ map (fun r => (id r, owner r, timestamp r, status r)) (records (app w'))
     = [(JStr "1700000000000-k3x9q2a", Some (JStr "0xA11CE"),
         Some (JNum 1700000000), JStr "pending")].
Proof. vm_compute. split; reflexivity. Qed.

(** * Further properties

    The wallet handlers, the mount effect, the form of the registration
    modal, the cells and the counts of the dashboard, and more of what
    the four operations do: how they end, what they leave untouched,
    and how they compose with the refresh that closes them. *)

Ltac unfold_session :=
  cbv beta iota delta
    [with_app with_chain logs log refreshed tx apply_writes foldl fst snd
     put_records put_loading put_isRefreshing put_registering
     put_transactionStatus put_account put_provider put_newRecordData
     app chain reader signer trace
     account provider records loading isRefreshing registering
     transactionStatus newRecordData].

Section RefreshFacts.
Context `{rt : JSRuntime}.

(** X1.  A refresh only reads.  [loadRecords] always returns normally;
    it makes no [setData] call and leaves the contract as it was, and of
    the React state it leaves the account, the provider, the
    transaction status and the form untouched. *)
Theorem refresh_only_reads (w : World) :
  let w' := snd (loadRecords w) in
  fst (loadRecords w) = Normal tt
  /\ chain w' = chain w
  /\ writes_of (events_of loadRecords w) = []
  /\ account (app w') = account (app w)
  /\ provider (app w') = provider (app w)
  /\ transactionStatus (app w') = transactionStatus (app w)
  /\ newRecordData (app w') = newRecordData (app w).
Proof.
  cbv zeta. rewrite loadRecords_run. repeat split.
  rewrite (events_of_app _ _ (snd (refresh_outcome w))).
  - apply writes_of_refresh.
  - by rewrite loadRecords_run.
Qed.

(** X2.  A refresh always lowers its flags.  Whatever happens inside
    [loadRecords] (no contract, probe refused or negative, unreadable
    index), its [finally] block runs: afterwards [isRefreshing] and
    [loading] are both [false].  The mount effect
    [loadRecords().finally(..)] returns normally as well, ends with
    [loading] lowered and shows the rows the refresh loaded. *)
Theorem refresh_always_clears_its_flags (w : World) :
  (isRefreshing (app (snd (loadRecords w))) = false
   /\ loading (app (snd (loadRecords w))) = false)
  /\ (fst (on_mount w) = Normal tt
      /\ loading (app (snd (on_mount w))) = false
      /\ records (app (snd (on_mount w))) = records (app (snd (loadRecords w)))).
Proof.
  unfold on_mount, try_finally, setLoading, set_state.
  rewrite loadRecords_run. by repeat split.
Qed.

Lemma refresh_outcome_again (w : World) :
  fst (refresh_outcome
         (with_app (refreshed (fst (refresh_outcome w)))
                   (logs (snd (refresh_outcome w)) w)))
  = fst (refresh_outcome w).
Proof.
  unfold refresh_outcome; simpl.
  destruct (reader w); [|done].
  destruct (probe_fault (chain w)); [done|].
  destruct (available (chain w)); [|done].
  destruct (read_faults (chain w) !! "record_keys"); [done|].
  destruct (iterate _) as [items|e]; [|done].
  destruct (existsb unprintable items); [done|].
  by destruct (sort _ _).
Qed.

(** X3.  A refresh is idempotent on the rows.  Refreshing a second time
    right after a refresh shows the same rows in the same order, and
    the contract is still the one the first refresh started from. *)
Theorem refresh_twice_shows_the_same (w : World) :
  let w1 := snd (loadRecords w) in
  let w2 := snd (loadRecords w1) in
  records (app w2) = records (app w1) /\ chain w2 = chain w.
Proof.
  cbv zeta. rewrite (loadRecords_run w). simpl snd.
  rewrite loadRecords_run. simpl. split; [|done].
  apply refresh_outcome_again.
Qed.




End RefreshFacts.

Section RegisterFacts.
Context `{rt : JSRuntime}.





End RegisterFacts.

Section TransitionFacts.
Context `{rt : JSRuntime}.





(** How a transition can end, when a wallet is connected. *)
Lemma transition_ends (newStatus okMessage failPrefix : string)
  (recordId : json) (w : World) :
  provider (app w) = true ->
  let w' := snd (transition newStatus okMessage failPrefix recordId w) in
  fst (transition newStatus okMessage failPrefix recordId w) = Normal tt
  /\ (transactionStatus (app w') = tx tx_success okMessage
      \/ (chain w' = chain w
          /\ writes_of (events_of
                          (transition newStatus okMessage failPrefix recordId) w)
             `prefix_of` writes_of (fst (transition_attempt newStatus recordId w))
          /\ exists e,
              transactionStatus (app w')
              = tx tx_error (failPrefix +:+ message_or_unknown e))).
Proof.
  intros Hp. cbv zeta.
  unfold events_of. rewrite transition_run, Hp.
  destruct (transition_attempt newStatus recordId w) as [es [e|new]]; simpl.
  - split; [done|]. right. split; [done|]. split; [|by exists e].
    by rewrite drop_app_length.
  - rewrite loadRecords_run. simpl. split; [done|]. by left.
Qed.

(** X7.  A transition that fails writes nothing.  With a wallet
    connected, [verifyRecord] and [rejectRecord] return normally
    whatever the contract does; either they end on their success
    message, or the contract is left exactly as it was and the
    transaction status is an error whose message starts with
    ["Verification failed: "] or ["Rejection failed: "]. *)
Theorem failed_transition_leaves_the_store (recordId : json) (w : World) :
  provider (app w) = true ->
  (fst (verifyRecord recordId w) = Normal tt
   /\ (succeeded (snd (verifyRecord recordId w))
       \/ (chain (snd (verifyRecord recordId w)) = chain w
           /\ exists e,
               transactionStatus (app (snd (verifyRecord recordId w)))
               = tx tx_error ("Verification failed: " +:+ message_or_unknown e))))
  /\ (fst (rejectRecord recordId w) = Normal tt
      /\ (succeeded (snd (rejectRecord recordId w))
          \/ (chain (snd (rejectRecord recordId w)) = chain w
              /\ exists e,
                  transactionStatus (app (snd (rejectRecord recordId w)))
                  = tx tx_error ("Rejection failed: " +:+ message_or_unknown e)))).
Proof.
  intros Hp. split.
  - destruct (transition_ends "verified"
                "FHE verification completed successfully!"
                "Verification failed: " recordId w Hp) as [Hn [Hs|(Hc & _ & He)]].
    + split; [exact Hn|]. left. unfold succeeded, verifyRecord. by rewrite Hs.
    + split; [exact Hn|]. by right.
  - destruct (transition_ends "rejected"
                "FHE rejection completed successfully!"
                "Rejection failed: " recordId w Hp) as [Hn [Hs|(Hc & _ & He)]].
    + split; [exact Hn|]. left. unfold succeeded, rejectRecord. by rewrite Hs.
    + split; [exact Hn|]. by right.
Qed.

(** X8.  A transition of a record that is not stored.  When the bytes
    under the record key are empty, [verifyRecord] and [rejectRecord]
    make the one [getData] call, report ["Record not found"] behind
    their failure prefix, and change neither the contract nor the rows
    on display. *)
Theorem transition_of_a_missing_record (recordId : json) (w : World) :
  provider (app w) = true ->
  signer w = true ->
  read_faults (chain w) !! record_key recordId = None ->
  stored (chain w) (record_key recordId) = "" ->
  (transactionStatus (app (snd (verifyRecord recordId w)))
   = tx tx_error "Verification failed: Record not found"
   /\ events_of (verifyRecord recordId) w = [CallGetData (record_key recordId)]
   /\ chain (snd (verifyRecord recordId w)) = chain w
   /\ records (app (snd (verifyRecord recordId w))) = records (app w))
  /\ (transactionStatus (app (snd (rejectRecord recordId w)))
      = tx tx_error "Rejection failed: Record not found"
      /\ events_of (rejectRecord recordId) w = [CallGetData (record_key recordId)]
      /\ chain (snd (rejectRecord recordId w)) = chain w
      /\ records (app (snd (rejectRecord recordId w))) = records (app w)).
Proof.
  intros Hp Hs Hr Hb.
  assert (forall ns, transition_attempt ns recordId w
          = ([CallGetData (record_key recordId)],
             inl (JsError "Record not found"))) as Hatt.
  { intros ns. unfold transition_attempt. by rewrite Hs, Hr, Hb. }
  split; unfold verifyRecord, rejectRecord, events_of;
    rewrite transition_run, Hp, Hatt; simpl;
    by rewrite drop_app_length.
Qed.

End TransitionFacts.

Section PayloadFacts.
Context `{rt : JSRuntime}.

Lemma set_prop_names (k : string) (v : json) (ps : list (string * json)) :
  map fst (set_prop k v ps)
  = match lookup_prop k ps with
    | Some _ => map fst ps
    | None => map fst ps ++ [k]
    end.
Proof.
  induction ps as [|[k' v'] ps IH]; simpl; [done|].
  destruct (String.eqb k k') eqn:E; simpl.
  - apply String.eqb_eq in E. by subst k'.
  - rewrite IH. by destruct (lookup_prop k ps).
Qed.

Lemma transition_bytes (newStatus okMessage failPrefix : string)
  (recordId d : json) (w : World) :
  ready recordId d w ->
  stored (chain (snd (transition newStatus okMessage failPrefix recordId w)))
         (record_key recordId)
  = JSON_stringify (with_status d newStatus).
Proof.
  intros Hready.
  destruct (transition_goes_through newStatus okMessage failPrefix
              recordId d w Hready) as [_ ->].
  apply stored_write_eq.
Qed.

(** X9.  A transition keeps what it does not know.  The object a ready
    [verifyRecord] writes back is the object the engine parsed from the
    stored bytes, with the status ["verified"]: every other property of
    the parsed object is kept with its value (also properties the
    interface does not name), and the properties come in the order in
    which the engine enumerates those of the parsed object, which for
    names that are array indices is not the order of the stored text.
    The status keeps its place when the parsed object has one and goes
    last when it has none. *)
Theorem transition_keeps_every_other_property (recordId : json)
  (ps : list (string * json)) (w : World) :
  ready recordId (JObj ps) w ->
  exists ps',
    stored (chain (snd (verifyRecord recordId w))) (record_key recordId)
    = JSON_stringify (JObj ps')
    /\ lookup_prop "status" ps' = Some (JStr "verified")
    /\ (forall k, k <> "status" -> lookup_prop k ps' = lookup_prop k ps)
    /\ map fst ps'
       = match lookup_prop "status" ps with
         | Some _ => map fst ps
         | None => map fst ps ++ ["status"]
         end.
Proof.
  intros Hready. exists (set_prop "status" (JStr "verified") ps).
  split; [|split; [|split]].
  - unfold verifyRecord. by rewrite (transition_bytes _ _ _ _ _ _ Hready).
  - apply lookup_set_prop_eq.
  - intros k Hk. by apply lookup_set_prop_ne.
  - apply set_prop_names.
Qed.

(** X10.  A transition of a payload that is not an object.  When the
    stored bytes parse to [null], a boolean or a number, the spread
    copies nothing: a ready [verifyRecord] or [rejectRecord] replaces
    the payload by an object holding the status alone. *)
Theorem transition_of_a_primitive_payload (recordId d : json) (w : World) :
  ready recordId d w ->
  d = JNull \/ (exists b, d = JBool b) \/ (exists n, d = JNum n) ->
  stored (chain (snd (verifyRecord recordId w))) (record_key recordId)
  = JSON_stringify (JObj [("status", JStr "verified")])
  /\ stored (chain (snd (rejectRecord recordId w))) (record_key recordId)
     = JSON_stringify (JObj [("status", JStr "rejected")]).
Proof.
  intros Hready Hd. unfold verifyRecord, rejectRecord.
  rewrite !(transition_bytes _ _ _ _ _ _ Hready).
  by destruct Hd as [->|[[b ->]|[n ->]]].
Qed.

(** X11.  A missing status reads as pending.  A stored object whose
    [status] is absent or falsy decodes to a row with status
    ["pending"], and the owner of that row, in any letter case, gets
    both buttons on it. *)
Theorem missing_status_reads_as_pending (key : json) (bytes : string)
  (ps : list (string * json)) :
  JSON_parse bytes = Normal (JObj ps) ->
  truthy (lookup_prop "status" ps) = false ->
  exists r,
    decode_record key bytes = Normal r
    /\ status r = JStr "pending"
    /\ forall acct o,
        owner r = Some (JStr o) ->
        toLowerCase acct = toLowerCase o ->
        row_buttons acct r = Normal [VerifyButton key; RejectButton key].
Proof.
  intros Hparse Hfalsy. eexists. split; [|split].
  - unfold decode_record. rewrite Hparse. simpl. apply build_record_object.
  - simpl. unfold js_or. destruct (lookup_prop "status" ps); [|done].
    by rewrite Hfalsy.
  - intros acct o Ho Hlow. unfold row_buttons. simpl in *. rewrite Ho. simpl.
    rewrite Hlow, String.eqb_refl. simpl.
    unfold js_or. destruct (lookup_prop "status" ps); [|done].
    by rewrite Hfalsy.
Qed.

(** X12.  A row without an owner cannot be rendered.  A stored object
    whose [owner] is not a string still decodes to a row (so the
    refresh shows it), but the owner test of the actions cell throws
    on it for every account. *)
Theorem row_without_owner_cannot_render (key : json) (bytes : string)
  (ps : list (string * json)) :
  JSON_parse bytes = Normal (JObj ps) ->
  (forall o, lookup_prop "owner" ps <> Some (JStr o)) ->
  exists r,
    decode_record key bytes = Normal r
    /\ forall acct, exists e, row_buttons acct r = Throw e.
Proof.
  intros Hparse Hno. eexists. split.
  - unfold decode_record. rewrite Hparse. simpl. apply build_record_object.
  - intros acct. unfold row_buttons. simpl.
    destruct (lookup_prop "owner" ps) as [[| | |o| |]|]; simpl;
      try (by eexists).
    by destruct (Hno o).
Qed.

End PayloadFacts.

Section SessionFacts.
Context `{rt : JSRuntime}.

Lemma events_of_log (e : event) (w : World) :
  drop (length (trace w)) (trace (log e w)) = [e].
Proof. unfold log; simpl. by rewrite drop_app_length. Qed.

(** X13.  After a disconnect the operations only alert.  [onDisconnect]
    clears the account but keeps the rows on display and does not touch
    the contract; from then on [registerVoter], [verifyRecord] and
    [rejectRecord] add the alert ["Please connect wallet first"] and
    nothing else: no contract call, no change of the React state. *)
Theorem disconnected_session_only_alerts (recordId : json)
  (now_id now_ts : Z) (suffix : string) (w : World) :
  let w1 := snd (onDisconnect w) in
  let told := log (Alert "Please connect wallet first") w1 in
  account (app w1) = ""
  /\ records (app w1) = records (app w)
  /\ chain w1 = chain w
  /\ snd (registerVoter now_id now_ts suffix w1) = told
  /\ snd (verifyRecord recordId w1) = told
  /\ snd (rejectRecord recordId w1) = told
  /\ chain told = chain w
  /\ app told = app w1.
Proof.
  cbv zeta. unfold verifyRecord, rejectRecord.
  rewrite registerVoter_run, !transition_run.
  unfold onDisconnect, setAccount, setProvider. run. simpl. done.
Qed.

(** X14.  Connecting a wallet never throws and never calls the
    contract.  Whatever the wallet does, [onWalletSelect] returns
    normally, leaves the contract, the rows and the transaction status
    as they were, and adds at most one event, the alert
    ["Failed to connect wallet"]. *)
Theorem wallet_connection_never_throws (wallet : Wallet) (w : World) :
  let w' := snd (onWalletSelect wallet w) in
  fst (onWalletSelect wallet w) = Normal tt
  /\ chain w' = chain w
  /\ records (app w') = records (app w)
  /\ transactionStatus (app w') = transactionStatus (app w)
  /\ contract_calls (events_of (onWalletSelect wallet) w) = []
  /\ (events_of (onWalletSelect wallet) w = []
      \/ events_of (onWalletSelect wallet) w
         = [Alert "Failed to connect wallet"]).
Proof.
  cbv zeta. unfold events_of, onWalletSelect, setAccount, setProvider. run.
  destruct (wallet_provider wallet); simpl.
  2:{ rewrite drop_all. repeat split. by left. }
  destruct (construct_fault wallet); simpl.
  { rewrite drop_app_length. repeat split. by right. }
  destruct (requested_accounts wallet); simpl.
  2:{ rewrite drop_app_length. repeat split. by right. }
  destruct (subscribe_fault wallet); simpl.
  { rewrite drop_app_length. repeat split. by right. }
  rewrite drop_all. repeat split. by left.
Qed.

(** X15.  A refused account request leaves the provider set.
    [setProvider] runs before the accounts are requested, so when the
    request throws, the handler alerts but the session ends with a
    provider and its previous account.  [registerVoter] then passes its
    wallet check: with a signer at hand its first event is the
    [setData] of a record owned by that previous account. *)
Theorem refused_account_request_leaves_provider_set (wallet : Wallet)
  (e : exn) (now_id now_ts : Z) (suffix : string) (w : World) :
  wallet_provider wallet = true ->
  construct_fault wallet = None ->
  requested_accounts wallet = Throw e ->
  signer w = true ->
  let w' := snd (onWalletSelect wallet w) in
  provider (app w') = true
  /\ account (app w') = account (app w)
  /\ events_of (onWalletSelect wallet) w = [Alert "Failed to connect wallet"]
  /\ exists more,
      events_of (registerVoter now_id now_ts suffix) w'
      = CallSetData (new_record_key now_id suffix)
                    (JSON_stringify (new_recordData (app w) now_ts)) :: more.
Proof.
  intros Hp Hc Hr Hs. cbv zeta.
  assert (snd (onWalletSelect wallet w)
          = log (Alert "Failed to connect wallet")
                (with_app (put_provider true) w)) as Hw.
  { unfold onWalletSelect, setProvider. run. by rewrite Hp, Hc, Hr. }
  split; [by rewrite Hw|]. split; [by rewrite Hw|]. split.
  - unfold events_of. rewrite Hw. simpl. by rewrite drop_app_length.
  - destruct (registerVoter_events now_id now_ts suffix
                (snd (onWalletSelect wallet w))) as (more & -> & _);
      [by rewrite Hw|].
    rewrite Hw. unfold register_attempt, new_record_key.
    change (signer (log _ (with_app _ w))) with (signer w). rewrite Hs.
    change (chain (log _ (with_app _ w))) with (chain w).
    change (new_recordData (app (log _ (with_app _ w))) now_ts)
      with (new_recordData (app w) now_ts).
    destruct (write_faults (chain w) !! _); [by eexists|].
    destruct (read_faults (chain w) !! _); [by eexists|].
    destruct (push _ _); [|by eexists].
    destruct (write_faults (chain w) !! _); by eexists.
Qed.

(** X16.  A connection sets the first account.  When the provider is
    built and the accounts are handed out, the session ends with a
    provider and with [accounts[0] || ""] as its account (the empty
    string for an empty list), also when subscribing to the wallet
    throws afterwards; each later ["accountsChanged"] notice replaces
    the account by the first of the new list and keeps the provider. *)
Theorem connected_wallet_sets_the_first_account (wallet : Wallet)
  (accounts : list string) (w : World) :
  wallet_provider wallet = true ->
  construct_fault wallet = None ->
  requested_accounts wallet = Normal accounts ->
  let w' := snd (onWalletSelect wallet w) in
  provider (app w') = true
  /\ account (app w') = first_account accounts
  /\ (accounts = [] -> account (app w') = "")
  /\ forall later,
      account (app (snd (onAccountsChanged later w'))) = first_account later
      /\ provider (app (snd (onAccountsChanged later w'))) = true.
Proof.
  intros Hp Hc Hr. cbv zeta.
  unfold onWalletSelect, onAccountsChanged, setAccount, setProvider. run.
  rewrite Hp, Hc, Hr. simpl.
  destruct (subscribe_fault wallet); simpl; repeat split; by intros ->.
Qed.

End SessionFacts.

Section RegisterEnds.
Context `{rt : JSRuntime}.

(** X17.  A registration always ends.  With a wallet connected,
    [registerVoter] returns normally, lowers [registering], and leaves
    a visible transaction status.  Either it ends on its success
    message with the payload stored under the new record key, or it
    ends on an error, and then the index bytes and the rows on display
    are the ones it started from. *)
Theorem registration_always_ends (now_id now_ts : Z) (suffix : string)
  (w : World) :
  provider (app w) = true ->
  let w' := snd (registerVoter now_id now_ts suffix w) in
  fst (registerVoter now_id now_ts suffix w) = Normal tt
  /\ registering (app w') = false
  /\ tx_visible (transactionStatus (app w')) = true
  /\ ((succeeded w'
       /\ stored (chain w') (new_record_key now_id suffix)
          = new_payload w now_ts)
      \/ (tx_status (transactionStatus (app w')) = tx_error
          /\ stored (chain w') "record_keys" = stored (chain w) "record_keys"
          /\ records (app w') = records (app w))).
Proof.
  intros Hp. cbv zeta.
  pose proof (new_record_key_ne now_id suffix) as Hkey.
  rewrite registerVoter_run, Hp. unfold register_attempt.
  fold (new_record_key now_id suffix). fold (new_payload w now_ts).
  destruct (signer w); [|by repeat split; right].
  destruct (write_faults (chain w) !! new_record_key now_id suffix);
    [by repeat split; right|].
  destruct (read_faults (chain w) !! "record_keys").
  { repeat split. right. repeat split. unfold_session.
    by apply stored_write_ne. }
  cbv zeta.
  destruct (push _ _) as [keys'|e].
  2:{ repeat split. right. repeat split. unfold_session.
      by apply stored_write_ne. }
  destruct (write_faults (chain w) !! "record_keys").
  { repeat split. right. repeat split. unfold_session.
    by apply stored_write_ne. }
  split; [done|]. rewrite loadRecords_run. repeat split. left. split; [done|].
  unfold_session. rewrite stored_write_ne by done. apply stored_write_eq.
Qed.

(** X18.  A registration the user refuses.  When the first [setData]
    is refused with a message that contains
    ["user rejected transaction"], [registerVoter] reports
    ["Transaction rejected by user"], has made that one call only, and
    leaves the contract and the rows as they were, with [registering]
    lowered. *)
Theorem refused_first_write_changes_nothing (now_id now_ts : Z)
  (suffix : string) (e : exn) (w : World) :
  provider (app w) = true ->
  signer w = true ->
  write_faults (chain w) !! new_record_key now_id suffix = Some e ->
  includes (message e) "user rejected transaction" = true ->
  let w' := snd (registerVoter now_id now_ts suffix w) in
  transactionStatus (app w') = tx tx_error "Transaction rejected by user"
  /\ events_of (registerVoter now_id now_ts suffix) w
     = [CallSetData (new_record_key now_id suffix) (new_payload w now_ts)]
  /\ chain w' = chain w
  /\ records (app w') = records (app w)
  /\ registering (app w') = false.
Proof.
  intros Hp Hs Hw Hinc. cbv zeta. unfold events_of.
  rewrite registerVoter_run, Hp. unfold register_attempt.
  fold (new_record_key now_id suffix). fold (new_payload w now_ts).
  rewrite Hs, Hw. unfold registration_error_text. rewrite Hinc.
  repeat split. simpl. by rewrite drop_app_length.
Qed.

End RegisterEnds.

Section FormFacts.
Context `{rt : JSRuntime}.

(** X19.  An incomplete form is not submitted.  When the region or the
    sensitive information of the form is empty, [handleSubmit] alerts
    ["Please fill required fields"] and does nothing else:
    [registerVoter] is not called, so there is no contract call, also
    with a wallet connected. *)
Theorem incomplete_form_is_not_submitted (now_id now_ts : Z)
  (suffix : string) (w : World) :
  form_region (newRecordData (app w)) = ""
  \/ form_sensitiveInfo (newRecordData (app w)) = "" ->
  handleSubmit now_id now_ts suffix w
  = (Normal tt, log (Alert "Please fill required fields") w).
Proof.
  intros H. unfold handleSubmit. run. simpl.
  destruct H as [-> | ->]; simpl; [done|].
  by rewrite orb_true_r.
Qed.

(** X20.  A filled form is submitted.  After [handleChange] has put a
    non-empty region and non-empty sensitive information into the form,
    [handleSubmit] is [registerVoter]: the age group is not required.
    The two changes leave the age group, the account, the contract and
    the trace as they were. *)
Theorem filled_form_is_submitted (region info : string)
  (now_id now_ts : Z) (suffix : string) (w : World) :
  region <> "" ->
  info <> "" ->
  let w1 := snd (handleChange in_sensitiveInfo info
                   (snd (handleChange in_region region w))) in
  handleSubmit now_id now_ts suffix w1 = registerVoter now_id now_ts suffix w1
  /\ newRecordData (app w1)
     = {| form_region := region;
          form_ageGroup := form_ageGroup (newRecordData (app w));
          form_sensitiveInfo := info |}
  /\ chain w1 = chain w
  /\ trace w1 = trace w
  /\ account (app w1) = account (app w).
Proof.
  intros Hr Hi. cbv zeta. split; [|done].
  unfold handleSubmit, handleChange, setNewRecordData. run. simpl.
  by rewrite !nonempty_true.
Qed.

End FormFacts.

Section RenderFacts.
Context `{rt : JSRuntime}.

Lemma lower_char_idem (c : ascii) : lower_char (lower_char c) = lower_char c.
Proof. by destruct c as [[] [] [] [] [] [] [] []]. Qed.

Lemma toLowerCase_idem (s : string) :
  toLowerCase (toLowerCase s) = toLowerCase s.
Proof.
  induction s as [|c s IH]; simpl; [done|].
  by rewrite lower_char_idem, IH.
Qed.

(** X21.  The owner test ignores letter case.  Lower-casing the
    account or the address does not change the answer of [isOwner], the
    test is symmetric in account and address, and an address is owned
    by its own lower-case form. *)
Theorem ownership_ignores_letter_case (acct address : string) :
  isOwner (toLowerCase acct) (Some (JStr address))
  = isOwner acct (Some (JStr address))
  /\ isOwner acct (Some (JStr (toLowerCase address)))
     = isOwner acct (Some (JStr address))
  /\ isOwner acct (Some (JStr address)) = isOwner address (Some (JStr acct))
  /\ isOwner (toLowerCase address) (Some (JStr address)) = Normal true.
Proof.
  unfold isOwner. rewrite !toLowerCase_idem, String.eqb_refl.
  repeat split. f_equal. apply String.eqb_sym.
Qed.

(** X22.  The registrant gets the buttons.  On the row a registration
    stores, the account that registered, written in any letter case,
    gets the Verify and the Reject button, both for the identifier of
    that row. *)
Theorem registrant_gets_the_buttons (a : AppState) (acct : string)
  (now_id now_ts : Z) (suffix : string) :
  toLowerCase acct = toLowerCase (account a) ->
  row_buttons acct (new_row a now_id now_ts suffix)
  = Normal [VerifyButton (JStr (new_recordId now_id suffix));
            RejectButton (JStr (new_recordId now_id suffix))].
Proof.
  intros H. unfold row_buttons, new_row. simpl.
  by rewrite H, String.eqb_refl.
Qed.

(** X23.  The actions cell of a row that matches the interface.
    Rendering never throws on such a row; the cell holds either nothing
    or the Verify and Reject buttons of the row's own identifier, and
    it holds the buttons exactly when the account equals the owner up
    to letter case and the status is [pending]. *)
Theorem typed_row_buttons (acct : string) (v : Voter) :
  exists l,
    row_buttons acct (row_of v) = Normal l
    /\ (l = [VerifyButton (JStr (v_id v)); RejectButton (JStr (v_id v))]
        \/ l = [])
    /\ (l <> [] <->
        toLowerCase acct = toLowerCase (v_owner v) /\ v_status v = pending).
Proof.
  unfold row_buttons, row_of. simpl.
  destruct (String.eqb (toLowerCase acct) (toLowerCase (v_owner v))) eqn:E.
  - apply String.eqb_eq in E.
    destruct (v_status v); simpl; eexists; (split; [reflexivity|]);
      (split; [by (left + right)|]); split; try done; by intros [_ [=]].
  - apply String.eqb_neq in E. simpl. eexists. split; [reflexivity|].
    split; [by right|]. split; [done|]. by intros [? _].
Qed.

Lemma substring_length (n : nat) (s : string) :
  String.length (String.substring 0 n s) = Nat.min n (String.length s).
Proof.
  revert s. induction n as [|n IH]; intros [|c s]; simpl; try done.
  by rewrite IH.
Qed.

Lemma substring_prefix (n : nat) (s : string) :
  String.prefix (String.substring 0 n s) s = true.
Proof.
  revert s. induction n as [|n IH]; intros [|c s]; simpl; try done.
  destruct (ascii_dec c c); [apply IH|done].
Qed.

Lemma substring_append (n : nat) (s t : string) :
  (n <= String.length s)%nat ->
  String.substring 0 n (s +:+ t) = String.substring 0 n s.
Proof.
  revert s. induction n as [|n IH]; intros [|c s] H; simpl in H.
  - by destruct t.
  - done.
  - lia.
  - rewrite RefFacts.append_cons. simpl. rewrite IH; [done|lia].
Qed.

(** X24.  The ID cell.  For a row whose identifier is a string the cell
    shows [#] followed by a prefix of the identifier, six characters
    long or the whole identifier if that is shorter.  For a row whose
    identifier is not a string (the index may list any value) rendering
    the cell throws. *)
Theorem id_cell_shows_six_characters (r : VoterRecord) :
  (forall s, id r = JStr s ->
     exists label,
       id_cell r = Normal ("#" +:+ label)
       /\ String.prefix label s = true
       /\ String.length label = Nat.min 6 (String.length s))
  /\ ((forall s, id r <> JStr s) -> exists e, id_cell r = Throw e).
Proof.
  unfold id_cell. split.
  - intros s ->. simpl. eexists. split; [reflexivity|].
    split; [apply substring_prefix|apply substring_length].
  - intros H. destruct (id r) as [| | |s| |]; simpl; try (by eexists).
    by destruct (H s).
Qed.

(** X25.  The ID cell of a registered record shows the time alone.
    The identifier is [Date.now()] in decimal, a dash and a random
    suffix; when the decimal has at least six digits the cell shows
    its first six, so the suffix never shows, and two records whose
    times agree on the first six digits get the same cell. *)
Theorem id_cell_hides_the_suffix (a a' : AppState)
  (now_id now_id' now_ts now_ts' : Z) (suffix suffix' : string) :
  (6 <= String.length (Z_to_string now_id))%nat ->
  String.substring 0 6 (Z_to_string now_id')
  = String.substring 0 6 (Z_to_string now_id) ->
  id_cell (new_row a now_id now_ts suffix)
  = Normal ("#" +:+ String.substring 0 6 (Z_to_string now_id))
  /\ id_cell (new_row a' now_id' now_ts' suffix')
     = id_cell (new_row a now_id now_ts suffix).
Proof.
  intros Hlen Hsame.
  assert (6 <= String.length (Z_to_string now_id'))%nat as Hlen'.
  { apply (f_equal String.length) in Hsame.
    rewrite !substring_length in Hsame. lia. }
  unfold id_cell, new_row, new_recordId. simpl.
  rewrite !substring_append by done. by rewrite Hsame.
Qed.

(** X26.  The data cell of a registered record.  The expanded row of a
    new record shows ["FHE-"], at most 76 characters of the base-64
    text of the form, and three dots, which are appended also when
    nothing was cut. *)
Theorem data_cell_of_a_new_row (a : AppState) (now_id now_ts : Z)
  (suffix : string) :
  let cipher := btoa (JSON_stringify (form_json (newRecordData a))) in
  encrypted_cell (new_row a now_id now_ts suffix)
  = Normal ("FHE-" +:+ String.substring 0 76 cipher +:+ "...")
  /\ (String.length ("FHE-" +:+ String.substring 0 76 cipher +:+ "...")
      <= 83)%nat.
Proof.
  cbv zeta. split.
  - unfold encrypted_cell, new_row. simpl.
    by rewrite !RefFacts.append_cons, RefFacts.append_nil.
  - rewrite !RefFacts.length_append_sum, substring_length.
    change (String.length "FHE-") with 4%nat.
    change (String.length "...") with 3%nat.
    pose proof (Nat.le_min_l 76 (String.length
      (btoa (JSON_stringify (form_json (newRecordData a)))))). lia.
Qed.

Lemma count_status_cons (s : string) (r : VoterRecord) (l : list VoterRecord) :
  count_status s (r :: l)
  = ((if is_string (status r) s then 1 else 0) + count_status s l)%nat.
Proof.
  unfold count_status. simpl. by destruct (is_string (status r) s).
Qed.

Lemma counted_once (r : VoterRecord) :
  let c s := if is_string (status r) s then 1%nat else 0%nat in
  (known_status r /\ (c "verified" + c "pending" + c "rejected" = 1)%nat)
  \/ (~ known_status r /\ (c "verified" + c "pending" + c "rejected" = 0)%nat).
Proof.
  cbv zeta. unfold known_status.
  destruct (status r) as [| | |s| |]; simpl;
    try (right; split; [by intros [|[|]]|done]).
  destruct (String.eqb s "verified") eqn:Ev.
  { apply String.eqb_eq in Ev. subst s. left. split; [tauto|done]. }
  destruct (String.eqb s "pending") eqn:Ep.
  { apply String.eqb_eq in Ep. subst s. left. split; [tauto|done]. }
  destruct (String.eqb s "rejected") eqn:Er.
  { apply String.eqb_eq in Er. subst s. left. split; [tauto|done]. }
  apply String.eqb_neq in Ev, Ep, Er.
  right. split; [|done]. intros [[=]|[[=]|[=]]]; congruence.
Qed.

Lemma counts_sum (l : list VoterRecord) :
  (count_status "verified" l + count_status "pending" l
   + count_status "rejected" l <= length l)%nat
  /\ (Forall known_status l <->
      (count_status "verified" l + count_status "pending" l
       + count_status "rejected" l = length l)%nat).
Proof.
  induction l as [|r l [IHle IHiff]]; [by split|].
  rewrite !count_status_cons. simpl length.
  destruct (counted_once r) as [[Hk Hc]|[Hk Hc]]; cbv zeta in Hc.
  - split; [lia|]. rewrite Forall_cons. split.
    + intros [_ Hl]. apply IHiff in Hl. lia.
    + intros H. split; [done|]. apply IHiff. lia.
  - split; [lia|]. rewrite Forall_cons. split.
    + by intros [? _].
    + intros H. lia.
Qed.

(** X27.  The counts of the dashboard.  A row is counted under at most
    one of verified, pending and rejected, so the three counts sum to
    at most the number of rows, and to exactly that number if and only
    if every row has one of the three statuses.  The denominator of the
    pie chart is at least one, bounds the sum, and is the number of
    rows when there are any. *)
Theorem status_counts_partition_the_rows (a : AppState) :
  (verifiedCount a + pendingCount a + rejectedCount a <= length (records a))%nat
  /\ (Forall known_status (records a) <->
      (verifiedCount a + pendingCount a + rejectedCount a
       = length (records a))%nat)
  /\ (1 <= pie_total a)%nat
  /\ (verifiedCount a + pendingCount a + rejectedCount a <= pie_total a)%nat
  /\ (records a <> [] -> pie_total a = length (records a)).
Proof.
  unfold verifiedCount, pendingCount, rejectedCount, pie_total.
  destruct (counts_sum (records a)) as [Hle Hiff].
  split; [done|]. split; [done|].
  destruct (records a) as [|r l]; simpl in *; repeat split; try lia; done.
Qed.

End RenderFacts.

(** ** The properties above, at concrete worlds *)



(** The row of [a] stays on display, and its record is not read. *)
Example refresh_over_spoilt_index :
  let w := Cases.shown_then_spoilt in
  records (app (snd (loadRecords w))) = [row_of Scenario.alice]
  /\ events_of loadRecords w
     = [CallIsAvailable; CallGetData "record_keys";
        ConsoleError "Error loading records:"].
Proof. vm_compute. split; reflexivity. Qed.

(** An identifier listed twice is shown twice. *)
Example refresh_listed_twice :
  records (app (snd (loadRecords Cases.listed_twice)))
  = [row_of Scenario.alice; row_of Scenario.alice].
Proof. vm_compute. reflexivity. Qed.



Lemma failed_transition_leaves_the_store_witness :
  let w := Cases.number_payload in
  (fst (verifyRecord (JStr "zz") w) = Normal tt
   /\ (succeeded (snd (verifyRecord (JStr "zz") w))
       \/ (chain (snd (verifyRecord (JStr "zz") w)) = chain w
           /\ exists e,
               transactionStatus (app (snd (verifyRecord (JStr "zz") w)))
               = tx tx_error ("Verification failed: " +:+ message_or_unknown e))))
  /\ (fst (rejectRecord (JStr "zz") w) = Normal tt
      /\ (succeeded (snd (rejectRecord (JStr "zz") w))
          \/ (chain (snd (rejectRecord (JStr "zz") w)) = chain w
              /\ exists e,
                  transactionStatus (app (snd (rejectRecord (JStr "zz") w)))
                  = tx tx_error ("Rejection failed: " +:+ message_or_unknown e)))).
Proof.
  apply (failed_transition_leaves_the_store (JStr "zz") Cases.number_payload).
  reflexivity.
Defined.

Lemma transition_of_a_missing_record_witness :
  let w := Scenario.alice_pending in
  (transactionStatus (app (snd (verifyRecord (JStr "zz") w)))
   = tx tx_error "Verification failed: Record not found"
   /\ events_of (verifyRecord (JStr "zz")) w = [CallGetData "record_zz"]
   /\ chain (snd (verifyRecord (JStr "zz") w)) = chain w
   /\ records (app (snd (verifyRecord (JStr "zz") w))) = records (app w))
  /\ (transactionStatus (app (snd (rejectRecord (JStr "zz") w)))
      = tx tx_error "Rejection failed: Record not found"
      /\ events_of (rejectRecord (JStr "zz")) w = [CallGetData "record_zz"]
      /\ chain (snd (rejectRecord (JStr "zz") w)) = chain w
      /\ records (app (snd (rejectRecord (JStr "zz") w))) = records (app w)).
Proof.
  apply (transition_of_a_missing_record (JStr "zz") Scenario.alice_pending);
    vm_compute; reflexivity.
Defined.

Lemma transition_keeps_every_other_property_witness :
  let w := Scenario.alice_pending in
  let ps := [("data", JStr "FHE-e30="); ("timestamp", JNum 100);
             ("owner", JStr "0xA11CE"); ("region", JStr "North");
             ("ageGroup", JStr "18-30"); ("status", JStr "pending")] in
  exists ps',
    stored (chain (snd (verifyRecord (JStr "a") w))) (record_key (JStr "a"))
    = JSON_stringify (JObj ps')
    /\ lookup_prop "status" ps' = Some (JStr "verified")
    /\ (forall k, k <> "status" -> lookup_prop k ps' = lookup_prop k ps)
    /\ map fst ps'
       = match lookup_prop "status" ps with
         | Some _ => map fst ps
         | None => map fst ps ++ ["status"]
         end.
Proof.
  apply (transition_keeps_every_other_property (JStr "a")
           [("data", JStr "FHE-e30="); ("timestamp", JNum 100);
            ("owner", JStr "0xA11CE"); ("region", JStr "North");
            ("ageGroup", JStr "18-30"); ("status", JStr "pending")]
           Scenario.alice_pending).
  repeat split; vm_compute; (reflexivity || discriminate).
Defined.

Lemma transition_of_a_primitive_payload_witness :
  let w := Cases.number_payload in
  stored (chain (snd (verifyRecord (JStr "a") w))) (record_key (JStr "a"))
  = JSON_stringify (JObj [("status", JStr "verified")])
  /\ stored (chain (snd (rejectRecord (JStr "a") w))) (record_key (JStr "a"))
     = JSON_stringify (JObj [("status", JStr "rejected")]).
Proof.
  apply (transition_of_a_primitive_payload (JStr "a") (JNum 5)
           Cases.number_payload).
  - repeat split; vm_compute; (reflexivity || discriminate).
  - right. right. by exists 5.
Defined.

(** The row of [a] before and after that transition: the bytes [5] give
    a row without owner, and the transition stores an object that holds
    the status alone. *)
Example primitive_payload_rows :
  let w := Cases.number_payload in
  map owner (records (app (snd (loadRecords w)))) = [None]
  /\ map status (records (app (snd (verifyRecord (JStr "a") w))))
     = [JStr "verified"]
  /\ map owner (records (app (snd (verifyRecord (JStr "a") w)))) = [None].
Proof. vm_compute. repeat split. Qed.

Lemma missing_status_reads_as_pending_witness :
  let ps := [("owner", JStr "0xA11CE")] in
  exists r,
    decode_record (JStr "a") (JSON_stringify (JObj ps)) = Normal r
    /\ status r = JStr "pending"
    /\ forall acct o,
        owner r = Some (JStr o) ->
        toLowerCase acct = toLowerCase o ->
        row_buttons acct r = Normal [VerifyButton (JStr "a");
                                     RejectButton (JStr "a")].
Proof.
  apply (missing_status_reads_as_pending (JStr "a")
           (JSON_stringify (JObj [("owner", JStr "0xA11CE")]))
           [("owner", JStr "0xA11CE")]).
  - vm_compute. reflexivity.
  - reflexivity.
Defined.

Lemma row_without_owner_cannot_render_witness :
  let ps := [("data", JStr "FHE-e30="); ("timestamp", JNum 100);
             ("region", JStr "North")] in
  exists r,
    decode_record (JStr "a") (stored (chain Cases.ownerless) "record_a")
    = Normal r
    /\ forall acct, exists e, row_buttons acct r = Throw e.
Proof.
  apply (row_without_owner_cannot_render (JStr "a")
           (stored (chain Cases.ownerless) "record_a")
           [("data", JStr "FHE-e30="); ("timestamp", JNum 100);
            ("region", JStr "North")]).
  - vm_compute. reflexivity.
  - intros o. vm_compute. discriminate.
Defined.

(** The refresh shows that row. *)
Example ownerless_row_is_loaded :
  map id (records (app (snd (loadRecords Cases.ownerless)))) = [JStr "a"].
Proof. vm_compute. reflexivity. Qed.

Lemma refused_account_request_leaves_provider_set_witness :
  let w := Cases.disconnected in
  let w' := snd (onWalletSelect Cases.refusing_wallet w) in
  provider (app w') = true
  /\ account (app w') = account (app w)
  /\ events_of (onWalletSelect Cases.refusing_wallet) w
     = [Alert "Failed to connect wallet"]
  /\ exists more,
      events_of (registerVoter 1700000000000 1700000000000 "k3x9q2a") w'
      = CallSetData (new_record_key 1700000000000 "k3x9q2a")
          (JSON_stringify (new_recordData (app w) 1700000000000)) :: more.
Proof.
  apply (refused_account_request_leaves_provider_set Cases.refusing_wallet
           (JsError "User rejected the request.")
           1700000000000 1700000000000 "k3x9q2a" Cases.disconnected);
    reflexivity.
Defined.

(** The record that registration stores has the empty account as its
    owner. *)
Example registration_after_refused_connection :
  let w' := snd (onWalletSelect Cases.refusing_wallet Cases.disconnected) in
  let w2 := snd (registerVoter 1700000000000 1700000000000 "k3x9q2a" w') in
  succeeded w2
  /\ (r ← decode_record (JStr "1700000000000-k3x9q2a")
            (stored (chain w2) "record_1700000000000-k3x9q2a");
      Normal (owner r)) = Normal (Some (JStr "")).
Proof. vm_compute. split; reflexivity. Qed.

Lemma connected_wallet_sets_the_first_account_witness :
  let w := Cases.disconnected in
  let w' := snd (onWalletSelect Cases.good_wallet w) in
  provider (app w') = true
  /\ account (app w') = first_account ["0xB0B"; "0xC0C"]
  /\ (["0xB0B"; "0xC0C"] = [] -> account (app w') = "")
  /\ forall later,
      account (app (snd (onAccountsChanged later w'))) = first_account later
      /\ provider (app (snd (onAccountsChanged later w'))) = true.
Proof.
  apply (connected_wallet_sets_the_first_account Cases.good_wallet
           ["0xB0B"; "0xC0C"] Cases.disconnected); reflexivity.
Defined.

Lemma registration_always_ends_witness :
  let w := Scenario.alice_pending in
  let w' := snd (registerVoter 1700000000000 1700000000000 "k3x9q2a" w) in
  fst (registerVoter 1700000000000 1700000000000 "k3x9q2a" w) = Normal tt
  /\ registering (app w') = false
  /\ tx_visible (transactionStatus (app w')) = true
  /\ ((succeeded w'
       /\ stored (chain w') (new_record_key 1700000000000 "k3x9q2a")
          = new_payload w 1700000000000)
      \/ (tx_status (transactionStatus (app w')) = tx_error
          /\ stored (chain w') "record_keys" = stored (chain w) "record_keys"
          /\ records (app w') = records (app w))).
Proof.
  apply (registration_always_ends 1700000000000 1700000000000 "k3x9q2a"
           Scenario.alice_pending).
  reflexivity.
Defined.

Lemma refused_first_write_changes_nothing_witness :
  let w := Cases.refusing in
  let w' := snd (registerVoter 1700000000000 1700000000000 "k3x9q2a" w) in
  transactionStatus (app w') = tx tx_error "Transaction rejected by user"
  /\ events_of (registerVoter 1700000000000 1700000000000 "k3x9q2a") w
     = [CallSetData (new_record_key 1700000000000 "k3x9q2a")
          (new_payload w 1700000000000)]
  /\ chain w' = chain w
  /\ records (app w') = records (app w)
  /\ registering (app w') = false.
Proof.
  apply (refused_first_write_changes_nothing
           1700000000000 1700000000000 "k3x9q2a"
           (JsError "ethers: user rejected transaction (action=sendTransaction)")
           Cases.refusing); vm_compute; reflexivity.
Defined.

Lemma incomplete_form_is_not_submitted_witness :
  handleSubmit 1700000000000 1700000000000 "k3x9q2a" Cases.no_region
  = (Normal tt, log (Alert "Please fill required fields") Cases.no_region).
Proof.
  apply (incomplete_form_is_not_submitted
           1700000000000 1700000000000 "k3x9q2a" Cases.no_region).
  by left.
Defined.

Lemma filled_form_is_submitted_witness :
  let w := Cases.no_region in
  let w1 := snd (handleChange in_sensitiveInfo "y"
                   (snd (handleChange in_region "North" w))) in
  handleSubmit 1700000000000 1700000000000 "k3x9q2a" w1
  = registerVoter 1700000000000 1700000000000 "k3x9q2a" w1
  /\ newRecordData (app w1)
     = {| form_region := "North";
          form_ageGroup := form_ageGroup (newRecordData (app w));
          form_sensitiveInfo := "y" |}
  /\ chain w1 = chain w
  /\ trace w1 = trace w
  /\ account (app w1) = account (app w).
Proof.
  apply (filled_form_is_submitted "North" "y"
           1700000000000 1700000000000 "k3x9q2a" Cases.no_region);
    discriminate.
Defined.

Lemma registrant_gets_the_buttons_witness :
  row_buttons "0xa11ce"
    (new_row (app Scenario.alice_pending)
             1700000000000 1700000000000 "k3x9q2a")
  = Normal [VerifyButton (JStr (new_recordId 1700000000000 "k3x9q2a"));
            RejectButton (JStr (new_recordId 1700000000000 "k3x9q2a"))].
Proof.
  apply (registrant_gets_the_buttons (app Scenario.alice_pending) "0xa11ce"
           1700000000000 1700000000000 "k3x9q2a").
  reflexivity.
Defined.

Lemma id_cell_hides_the_suffix_witness :
  let a := app Scenario.alice_pending in
  id_cell (new_row a 1700000000000 1700000000000 "k3x9q2a")
  = Normal ("#" +:+ String.substring 0 6 (Z_to_string 1700000000000))
  /\ id_cell (new_row a 1700009999999 1700009999999 "zzzzzzz")
     = id_cell (new_row a 1700000000000 1700000000000 "k3x9q2a").
Proof.
  apply (id_cell_hides_the_suffix (app Scenario.alice_pending)
           (app Scenario.alice_pending)
           1700000000000 1700009999999 1700000000000 1700009999999
           "k3x9q2a" "zzzzzzz").
  - vm_compute. lia.
  - vm_compute. reflexivity.
Defined.

(** Two records registered almost three hours apart carry the same
    label. *)
Example id_cell_of_two_registrations :
  let a := app Scenario.alice_pending in
  id_cell (new_row a 1700000000000 1700000000000 "k3x9q2a") = Normal "#170000"
  /\ id_cell (new_row a 1700009999999 1700009999999 "zzzzzzz")
     = Normal "#170000".
Proof. vm_compute. split; reflexivity. Qed.
